(** * The bucket endpoints of the satellite's metainfo service

    A shallow embedding of [satellite/metainfo/endpoint_bucket.go]:
    [GetBucket], [CreateBucket], [DeleteBucket] with its helpers
    [deleteBucket], [isBucketEmpty], [deleteBucketNotEmpty] and
    [deleteBucketObjects], [ListBuckets], [getAllowedBuckets],
    [convertProtoToBucket] and [convertBucketToProto].

    The endpoint talks to stores it does not own (the bucket catalog, the
    object metabase, the project settings, the piece deletion service).  They
    are an interface here, [Collaborators], over an arbitrary world [W]: every
    call is a transformer of the world, so whatever other requests do to the
    stores while one request runs is part of what a call may return.  The
    endpoint code is written in a small monad that threads the world, records
    each collaborator call in a trace, and can panic.  [time.Now()] is an
    argument of each endpoint.  Monitoring ([mon.Task]) and the version
    collector change no answer and no store, and are left out. *)

From Stdlib Require Import ZArith List String Ascii Bool Lia DecimalString.
Import ListNotations.
Open Scope string_scope.
Open Scope list_scope.
Open Scope Z_scope.

(** ** Errors: [errs] classes and [rpcstatus] codes *)

(** The error classes the file tests with [Has].  [ErrBucketNotFound] is
    [storj.ErrBucketNotFound]; [Error] is the package's own class, here
    [MetainfoError]; [ForeignClass] stands for any class of another package. *)
Inductive class : Type :=
| MetainfoError
| ErrBucketNotEmpty
| ErrBucketNotFound
| ForeignClass (name : string).

Definition class_eqb (c d : class) : bool :=
  match c, d with
  | MetainfoError, MetainfoError => true
  | ErrBucketNotEmpty, ErrBucketNotEmpty => true
  | ErrBucketNotFound, ErrBucketNotFound => true
  | ForeignClass n, ForeignClass m => String.eqb n m
  | _, _ => false
  end.

(** The names the classes are declared with, in [storj] and in the package's
    own declarations; they show in messages only. *)
Definition class_name (c : class) : string :=
  match c with
  | MetainfoError => "metainfo"
  | ErrBucketNotEmpty => "bucket not empty"
  | ErrBucketNotFound => "bucket not found"
  | ForeignClass n => n
  end.

Inductive StatusCode : Type :=
| InvalidArgument | NotFound | AlreadyExists | ResourceExhausted
| FailedPrecondition | Internal.

(** What the authorization gate answers when it refuses. *)
Inductive Denial : Type := InvalidCredential | Forbidden.

(** A Go [error] value: a plain message, an error of a class around its cause
    ([Class.New] wraps a plain message, [Class.Wrap] another error), an
    [rpcstatus] error, or a denial of the gate. *)
Inductive error : Type :=
| errorString (msg : string)
| classError (c : class) (cause : error)
| statusError (code : StatusCode) (msg : string)
| deniedError (d : Denial).

(** [err.Error()]. *)
Fixpoint err_Error (e : error) : string :=
  match e with
  | errorString msg => msg
  | classError c cause =>
      let inner := err_Error cause in
      if (String.length (class_name c) =? 0)%nat then inner
      else if (String.length inner =? 0)%nat then class_name c
      else (class_name c ++ ": " ++ inner)%string
  | statusError _ msg => msg
  | deniedError InvalidCredential => "invalid credential"
  | deniedError Forbidden => "forbidden"
  end.

(** [c.Has(err)]: some error of the chain was created by the class. *)
Fixpoint Has (c : class) (e : error) : bool :=
  match e with
  | classError d cause => class_eqb c d || Has c cause
  | _ => false
  end.

(** [c.New(msg)]. *)
Definition class_New (c : class) (msg : string) : error :=
  classError c (errorString msg).

(** [c.Wrap(err)]: nil stays nil, an error whose outermost class is already
    [c] is returned as it is. *)
Definition class_Wrap (c : class) (err : option error) : option error :=
  match err with
  | None => None
  | Some (classError d cause) =>
      if class_eqb c d then Some (classError d cause)
      else Some (classError c (classError d cause))
  | Some e => Some (classError c e)
  end.

(** [rpcstatus.Error(code, msg)]. *)
Definition rpcstatus_Error (code : StatusCode) (msg : string) : error :=
  statusError code msg.

(** The status code a caller sees on an error, when it has one. *)
Definition status_code (e : error) : option StatusCode :=
  match e with
  | statusError code _ => Some code
  | _ => None
  end.

Definition StatusCode_eqb (a b : StatusCode) : bool :=
  match a, b with
  | InvalidArgument, InvalidArgument | NotFound, NotFound
  | AlreadyExists, AlreadyExists | ResourceExhausted, ResourceExhausted
  | FailedPrecondition, FailedPrecondition | Internal, Internal => true
  | _, _ => false
  end.

(** The call failed with an [rpcstatus] error of the given code. *)
Definition fails_with (code : StatusCode) (err : option error) : bool :=
  match err with
  | Some e => match status_code e with
              | Some c => StatusCode_eqb c code
              | None => false
              end
  | None => false
  end.

(** ** Data *)

(** [[]byte] and [string] are both byte sequences; the conversions between
    them in the source copy the bytes, so one type serves for both. *)
Definition bytes : Type := string.

Definition len (b : bytes) : nat := String.length b.

(** [time.Time], as an instant on the integer line. *)
Definition Time : Type := Z.

(** [uuid.UUID] is sixteen bytes, here the 128-bit number they spell. *)
Definition UUID : Type := Z.

Definition uuid_zero : UUID := 0.

(** [uuid.IsZero()]. *)
Definition IsZero (u : UUID) : bool := u =? uuid_zero.

(** Signed wrap-around of the fixed-width integer types. *)
Definition wrap (bits : Z) (x : Z) : Z :=
  (x + 2 ^ (bits - 1)) mod 2 ^ bits - 2 ^ (bits - 1).

Definition int32_mul (a b : Z) : Z := wrap 32 (a * b).

Inductive ActionType : Type :=
| ActionRead | ActionWrite | ActionList | ActionDelete.

Definition ActionType_eqb (a b : ActionType) : bool :=
  match a, b with
  | ActionRead, ActionRead | ActionWrite, ActionWrite
  | ActionList, ActionList | ActionDelete, ActionDelete => true
  | _, _ => false
  end.

(** [macaroon.Action]. *)
Record Action : Type := {
  Op : ActionType;
  ActionBucket : bytes;
  EncryptedPath : bytes;
  ActionTime : Time
}.

(** [macaroon.AllowedBuckets]. *)
Record AllowedBuckets : Type := {
  All : bool;
  Buckets : list string
}.

Definition AllowedBuckets_zero : AllowedBuckets :=
  {| All := false; Buckets := [] |}.

Inductive CipherSuite : Type :=
| ENC_UNSPECIFIED | ENC_NULL | ENC_AESGCM | ENC_SECRETBOX.

(** [pb.RedundancyScheme]; the numeric fields are [int32]. *)
Record RedundancyScheme : Type := {
  RSType : Z;
  MinReq : Z;
  Total : Z;
  RepairThreshold : Z;
  SuccessThreshold : Z;
  ErasureShareSize : Z
}.

(** [pb.EncryptionParameters]. *)
Record EncryptionParameters : Type := {
  EPCipherSuite : CipherSuite;
  BlockSize : Z
}.

(** [pb.Bucket], the wire form of a bucket. *)
Record pbBucket : Type := {
  pbName : bytes;
  PathCipher : CipherSuite;
  pbCreatedAt : Time;
  DefaultSegmentSize : Z;
  DefaultRedundancyScheme : option RedundancyScheme;
  DefaultEncryptionParameters : option EncryptionParameters
}.

(** [buckets.Bucket], the minimal bucket the catalog hands out. *)
Record Bucket : Type := {
  Name : bytes;
  CreatedAt : Time
}.

Definition Bucket_zero : Bucket := {| Name := ""; CreatedAt := 0 |}.

(** [storj.Bucket], the record the catalog stores. *)
Record storjBucket : Type := {
  ID : UUID;
  sbName : string;
  ProjectID : UUID;
  PartnerID : UUID;
  Created : Time
}.

Definition storjBucket_zero : storjBucket :=
  {| ID := uuid_zero; sbName := ""; ProjectID := uuid_zero;
     PartnerID := uuid_zero; Created := 0 |}.

(** [storj.BucketListOptions] and [storj.BucketList]. *)
Record BucketListOptions : Type := {
  Cursor : string;
  Direction : Z;
  Limit : Z
}.

Record BucketList : Type := {
  More : bool;
  Items : list storjBucket
}.

(** [metabase.BucketLocation]. *)
Record BucketLocation : Type := {
  locProjectID : UUID;
  BucketName : string
}.

(** [metabase.DeletedSegmentInfo]: the root piece and the nodes holding the
    pieces of one deleted segment. *)
Record DeletedSegmentInfo : Type := {
  RootPieceID : Z;
  Pieces : list Z
}.

(** ** Credentials and the authorization gate *)

(** Modelled from the spec: the capability credential, which lives in the
    macaroon package.  A credential names its principal (the project), is
    expired or not at an instant, holds or lacks the capability for an action
    (operation, resource and time), and yields the set of buckets it allows
    for an action. *)
Record Credential : Type := {
  cred_project : UUID;
  cred_expired : Time -> bool;
  cred_grants : Action -> bool;
  cred_GetAllowedBuckets : Action -> AllowedBuckets * option error
}.

(** [pb.RequestHeader].  [ApiKey] is the serialized key as [getAPIKey] decodes
    it: the credential, or the decoding error of a malformed key. *)
Record RequestHeader : Type := {
  ApiKey : Credential + error;
  UserAgent : bytes
}.

(** The principal the gate resolves: [console.APIKeyInfo], of which the
    endpoints read [ProjectID] only. *)
Record KeyInfo : Type := {
  kiProjectID : UUID
}.

(** One check of [validateAuthN]; [optional] checks report their outcome in
    the flag the source passes by pointer ([actionPermitted]). *)
Record verifyPermission : Type := {
  action : Action;
  optional : bool
}.

Definition getAPIKey (header : RequestHeader) : Credential + error :=
  ApiKey header.

(** Modelled from the spec: the per-check part of the gate (section 4.1).  A
    granted check sets its flag; a refused optional check clears it; a refused
    mandatory check denies the call with Forbidden. *)
Fixpoint checkPermissions (c : Credential) (perms : list verifyPermission)
  : list bool + Denial :=
  match perms with
  | [] => inl []
  | p :: rest =>
      if cred_grants c (action p) then
        match checkPermissions c rest with
        | inl flags => inl (true :: flags)
        | inr d => inr d
        end
      else if optional p then
        match checkPermissions c rest with
        | inl flags => inl (false :: flags)
        | inr d => inr d
        end
      else inr Forbidden
  end.

(** Modelled from the spec: [validateAuthN], the authorization gate of section
    4.1, which is in the package's validation file.  It is a pure check: a
    malformed or expired credential is InvalidCredential, a missing mandatory
    capability is Forbidden, otherwise the principal comes back with one flag
    per check. *)
Definition validateAuthN (header : RequestHeader) (perms : list verifyPermission)
  : (KeyInfo * list bool) + error :=
  match getAPIKey header with
  | inr _ => inr (deniedError InvalidCredential)
  | inl c =>
      if existsb (fun p => cred_expired c (ActionTime (action p))) perms
      then inr (deniedError InvalidCredential)
      else match checkPermissions c perms with
           | inl flags => inl ({| kiProjectID := cred_project c |}, flags)
           | inr d => inr (deniedError d)
           end
  end.

(** Modelled from the spec: [validateAuth], the gate with its one mandatory
    action. *)
Definition validateAuth (header : RequestHeader) (a : Action) : KeyInfo + error :=
  match validateAuthN header [ {| action := a; optional := false |} ] with
  | inl (keyInfo, _) => inl keyInfo
  | inr err => inr err
  end.

(** ** Wire messages *)

Module BucketGetRequest.
Record t : Type := { Header : RequestHeader; Name : bytes }.
End BucketGetRequest.

Module BucketGetResponse.
Record t : Type := { Bucket : option pbBucket }.
End BucketGetResponse.

(** The create request carries the client's own encryption and redundancy
    preferences next to the name. *)
Module BucketCreateRequest.
Record t : Type := {
  Header : RequestHeader;
  Name : bytes;
  PathCipher : CipherSuite;
  DefaultSegmentSize : Z;
  DefaultRedundancyScheme : option RedundancyScheme;
  DefaultEncryptionParameters : option EncryptionParameters;
  PartnerId : bytes
}.
End BucketCreateRequest.

Module BucketCreateResponse.
Record t : Type := { Bucket : option pbBucket }.
End BucketCreateResponse.

Module BucketDeleteRequest.
Record t : Type := { Header : RequestHeader; Name : bytes; DeleteAll : bool }.
End BucketDeleteRequest.

Module BucketDeleteResponse.
Record t : Type := { Bucket : option pbBucket; DeletedObjectsCount : Z }.
(** [&pb.BucketDeleteResponse{}]. *)
Definition empty : t := {| Bucket := None; DeletedObjectsCount := 0 |}.
End BucketDeleteResponse.

Module BucketListRequest.
Record t : Type := {
  Header : RequestHeader;
  Cursor : bytes;
  Limit : Z;
  Direction : Z
}.
End BucketListRequest.

Module BucketListItem.
Record t : Type := { Name : bytes; CreatedAt : Time }.
End BucketListItem.

Module BucketListResponse.
Record t : Type := { Items : list BucketListItem.t; More : bool }.
End BucketListResponse.

(** ** The endpoint's configuration *)

(** The fields of [Endpoint] the file reads: [defaultRS],
    [config.MaxSegmentSize] and [config.ProjectLimits.MaxBuckets]. *)
Record Endpoint : Type := {
  defaultRS : RedundancyScheme;
  MaxSegmentSize : Z;
  ProjectLimits_MaxBuckets : Z
}.

(** ** Collaborators *)

(** Every call the endpoint makes on a collaborator, as it appears in the
    trace of a request. *)
Inductive Event : Type :=
| EvGetMinimalBucket (name : bytes) (projectID : UUID)
| EvHasBucket (name : bytes) (projectID : UUID)
| EvCountBuckets (projectID : UUID)
| EvCreateBucket (bucket : storjBucket)
| EvDeleteBucket (name : bytes) (projectID : UUID)
| EvListBuckets (projectID : UUID) (opts : BucketListOptions) (allowed : AllowedBuckets)
| EvGetMaxBuckets (projectID : UUID)
| EvBucketEmpty (loc : BucketLocation)
| EvDeleteBucketObjects (loc : BucketLocation)
| EvEnsureAttribution (name : bytes)
| EvUUIDNew
| EvLogError (msg : string) (bucketName : option string) (err : error).

(** The catalog delete and the drain are the calls of this file that remove
    something. *)
Definition removes (ev : Event) : bool :=
  match ev with
  | EvDeleteBucket _ _ | EvDeleteBucketObjects _ => true
  | _ => false
  end.

Definition inserts (ev : Event) : bool :=
  match ev with
  | EvCreateBucket _ => true
  | _ => false
  end.

(** The interfaces the endpoint consumes, over a world [W]: the bucket catalog
    ([endpoint.buckets]), the project settings ([endpoint.projects]), the
    object metabase ([endpoint.metabase]), the piece deletion service behind
    [deleteSegmentPieces], attribution, the name check [validateBucket] and
    the [uuid] package.  A Go call returning [(v, err)] returns the pair. *)
Class Collaborators (W : Type) : Type := {
  validateBucket : bytes -> option error;
  uuid_UnmarshalJSON : bytes -> UUID -> UUID * option error;
  uuid_New : W -> (UUID * option error) * W;
  buckets_GetMinimalBucket : bytes -> UUID -> W -> (Bucket * option error) * W;
  buckets_HasBucket : bytes -> UUID -> W -> (bool * option error) * W;
  buckets_CountBuckets : UUID -> W -> (Z * option error) * W;
  buckets_CreateBucket : storjBucket -> W -> (storjBucket * option error) * W;
  buckets_DeleteBucket : bytes -> UUID -> W -> option error * W;
  buckets_ListBuckets :
    UUID -> BucketListOptions -> AllowedBuckets -> W -> (BucketList * option error) * W;
  projects_GetMaxBuckets : UUID -> W -> (option Z * option error) * W;
  metabase_BucketEmpty : BucketLocation -> W -> (bool * option error) * W;
  metabase_DeleteBucketObjects :
    BucketLocation -> (list DeletedSegmentInfo -> W -> option error * W) ->
    W -> (Z * option error) * W;
  deleteSegmentPieces : list DeletedSegmentInfo -> W -> W;
  ensureAttribution : RequestHeader -> KeyInfo -> bytes -> W -> option error * W
}.

(** ** The monad of a request *)

Inductive outcome (A : Type) : Type :=
| Done (a : A)
| Panicked.
Arguments Done {A} a.
Arguments Panicked {A}.

Definition M (W A : Type) : Type := W * list Event -> outcome A * (W * list Event).

Definition ret {W A : Type} (a : A) : M W A := fun s => (Done a, s).

Definition bind {W A B : Type} (m : M W A) (k : A -> M W B) : M W B :=
  fun s => match m s with
           | (Done a, s') => k a s'
           | (Panicked, s') => (Panicked, s')
           end.

(** A collaborator call: it transforms the world and leaves its mark. *)
Definition call {W A : Type} (ev : Event) (f : W -> A * W) : M W A :=
  fun s => let '(a, w') := f (fst s) in (Done a, (w', snd s ++ [ev])).

(** A pure step that may panic. *)
Definition lift {W A : Type} (o : outcome A) : M W A := fun s => (o, s).

(** [endpoint.log.Error]. *)
Definition logError {W : Type} (msg : string) (bucketName : option string) (err : error)
  : M W unit :=
  fun s => (Done tt, (fst s, snd s ++ [EvLogError msg bucketName err])).

Declare Scope go_scope.
Delimit Scope go_scope with go.
Notation "x <- c ;; k" := (bind c (fun x => k))
  (at level 61, c at next level, right associativity) : go_scope.
Notation "' pat <- c ;; k" := (bind c (fun x => match x with pat => k end))
  (at level 61, pat pattern, c at next level, right associativity) : go_scope.
Notation "c ;;; k" := (bind c (fun _ => k))
  (at level 61, right associativity) : go_scope.

(** The world and the trace a request leaves, and what it answers. *)
Definition answer {W A : Type} (r : outcome A * (W * list Event)) : outcome A := fst r.
Definition world {W A : Type} (r : outcome A * (W * list Event)) : W := fst (snd r).
Definition trace {W A : Type} (r : outcome A * (W * list Event)) : list Event := snd (snd r).

Definition notNil (err : option error) : bool :=
  match err with Some _ => true | None => false end.

(** ** Conversions *)

(** [convertBucketToProto].  [rs] is a pointer the function dereferences when
    the name is not empty: a nil [rs] panics there. *)
Definition convertBucketToProto (bucket : Bucket) (rs : option RedundancyScheme)
  (maxSegmentSize : Z) : outcome (option pbBucket * option error) :=
  if (len (Name bucket) =? 0)%nat then Done (None, None)
  else match rs with
       | None => Panicked
       | Some r =>
           Done (Some {| pbName := Name bucket;
                         pbCreatedAt := CreatedAt bucket;
                         PathCipher := ENC_AESGCM;
                         DefaultSegmentSize := maxSegmentSize;
                         DefaultRedundancyScheme := rs;
                         DefaultEncryptionParameters :=
                           Some {| EPCipherSuite := ENC_AESGCM;
                                   BlockSize := int32_mul (ErasureShareSize r) (MinReq r) |} |},
                 None)
       end.

(** [fmt.Sprintf] of a [%d]. *)
Definition decimal (n : Z) : string := NilZero.string_of_int (Z.to_int n).

(** [getAllowedBuckets]. *)
Definition getAllowedBuckets (header : RequestHeader) (a : Action)
  : AllowedBuckets * option error :=
  match getAPIKey header with
  | inr err =>
      (AllowedBuckets_zero,
       Some (rpcstatus_Error InvalidArgument
               ("Invalid API credentials: " ++ err_Error err)%string))
  | inl key =>
      let '(allowedBuckets, err) := cred_GetAllowedBuckets key a in
      match err with
      | Some e =>
          (AllowedBuckets_zero,
           Some (rpcstatus_Error Internal ("GetAllowedBuckets: " ++ err_Error e)%string))
      | None => (allowedBuckets, err)
      end
  end.

(** ** The endpoints *)

Section Endpoints.

Context {W : Type} {C : Collaborators W}.
Variable endpoint : Endpoint.

Local Open Scope go_scope.

(** What a Go method returning [(resp, err)] returns. *)
Definition reply (A : Type) : Type := (option A * option error)%type.

(** [convertProtoToBucket].  [bucket] is the named result, still zero when
    the function returns it next to "Invalid uuid". *)
Definition convertProtoToBucket (req : BucketCreateRequest.t) (projectID : UUID)
  : M W (storjBucket * option error) :=
  '(bucketID, err) <- call EvUUIDNew uuid_New ;;
  match err with
  | Some e => ret (storjBucket_zero, Some e)
  | None =>
      let '(partnerID, err) :=
        uuid_UnmarshalJSON (BucketCreateRequest.PartnerId req) uuid_zero in
      if notNil err && negb (IsZero partnerID)
      then ret (storjBucket_zero, Some (errorString "Invalid uuid"))
      else ret ({| ID := bucketID;
                   sbName := BucketCreateRequest.Name req;
                   ProjectID := projectID;
                   PartnerID := partnerID;
                   Created := 0 |}, None)
  end.

(** [GetBucket]. *)
Definition GetBucket (req : BucketGetRequest.t) (now : Time)
  : M W (reply BucketGetResponse.t) :=
  match validateAuth (BucketGetRequest.Header req)
          {| Op := ActionRead; ActionBucket := BucketGetRequest.Name req;
             EncryptedPath := ""; ActionTime := now |} with
  | inr err => ret (None, Some err)
  | inl keyInfo =>
      '(bucket, err) <-
        call (EvGetMinimalBucket (BucketGetRequest.Name req) (kiProjectID keyInfo))
             (buckets_GetMinimalBucket (BucketGetRequest.Name req) (kiProjectID keyInfo)) ;;
      match err with
      | Some e =>
          if Has ErrBucketNotFound e
          then ret (None, Some (rpcstatus_Error NotFound (err_Error e)))
          else logError "internal" None e ;;;
               ret (None, Some (rpcstatus_Error Internal (err_Error e)))
      | None =>
          '(convBucket, err) <-
            lift (convertBucketToProto bucket (Some (defaultRS endpoint))
                    (MaxSegmentSize endpoint)) ;;
          match err with
          | Some e => ret (None, Some e)
          | None => ret (Some {| BucketGetResponse.Bucket := convBucket |}, None)
          end
      end
  end.

(** [CreateBucket]. *)
Definition CreateBucket (req : BucketCreateRequest.t) (now : Time)
  : M W (reply BucketCreateResponse.t) :=
  let name := BucketCreateRequest.Name req in
  let header := BucketCreateRequest.Header req in
  match validateAuth header
          {| Op := ActionWrite; ActionBucket := name;
             EncryptedPath := ""; ActionTime := now |} with
  | inr err => ret (None, Some err)
  | inl keyInfo =>
  match validateBucket name with
  | Some err => ret (None, Some (rpcstatus_Error InvalidArgument (err_Error err)))
  | None =>
  '(exists_, err) <-
    call (EvHasBucket name (kiProjectID keyInfo))
         (buckets_HasBucket name (kiProjectID keyInfo)) ;;
  match err with
  | Some e =>
      logError "internal" None e ;;;
      ret (None, Some (rpcstatus_Error Internal (err_Error e)))
  | None =>
  if exists_ : bool then
    err <- call (EvEnsureAttribution name) (ensureAttribution header keyInfo name) ;;
    match err with
    | Some e => ret (None, Some e)
    | None => ret (None, Some (rpcstatus_Error AlreadyExists "bucket already exists"))
    end
  else
  '(maxBuckets, err) <-
    call (EvGetMaxBuckets (kiProjectID keyInfo))
         (projects_GetMaxBuckets (kiProjectID keyInfo)) ;;
  match err with
  | Some e => ret (None, Some e)
  | None =>
  let maxBuckets :=
    match maxBuckets with
    | None => ProjectLimits_MaxBuckets endpoint
    | Some m => m
    end in
  '(bucketCount, err) <-
    call (EvCountBuckets (kiProjectID keyInfo))
         (buckets_CountBuckets (kiProjectID keyInfo)) ;;
  match err with
  | Some e => ret (None, Some e)
  | None =>
  if bucketCount >=? maxBuckets then
    ret (None,
         Some (rpcstatus_Error ResourceExhausted
                 ("number of allocated buckets ("
                  ++ decimal (ProjectLimits_MaxBuckets endpoint)
                  ++ ") exceeded")%string))
  else
  '(bucketReq, err) <- convertProtoToBucket req (kiProjectID keyInfo) ;;
  match err with
  | Some e => ret (None, Some (rpcstatus_Error InvalidArgument (err_Error e)))
  | None =>
  '(bucket, err) <- call (EvCreateBucket bucketReq) (buckets_CreateBucket bucketReq) ;;
  match err with
  | Some e =>
      logError "error while creating bucket" (Some (sbName bucketReq)) e ;;;
      ret (None, Some (rpcstatus_Error Internal "unable to create bucket"))
  | None =>
  err <- call (EvEnsureAttribution name) (ensureAttribution header keyInfo name) ;;
  match err with
  | Some e => ret (None, Some e)
  | None =>
  '(convBucket, err) <-
    lift (convertBucketToProto
            {| Name := sbName bucket; CreatedAt := Created bucket |}
            (Some (defaultRS endpoint)) (MaxSegmentSize endpoint)) ;;
  match err with
  | Some e =>
      logError "error while converting bucket to proto" (Some (sbName bucket)) e ;;;
      ret (None, Some (rpcstatus_Error Internal "unable to create bucket"))
  | None => ret (Some {| BucketCreateResponse.Bucket := convBucket |}, None)
  end end end end end end end end end.

(** [isBucketEmpty]. *)
Definition isBucketEmpty (projectID : UUID) (bucketName : bytes)
  : M W (bool * option error) :=
  let loc := {| locProjectID := projectID; BucketName := bucketName |} in
  '(empty, err) <- call (EvBucketEmpty loc) (metabase_BucketEmpty loc) ;;
  ret (empty, class_Wrap MetainfoError err).

(** [deleteBucket]: the catalog delete, guarded by the emptiness check. *)
Definition deleteBucket (bucketName : bytes) (projectID : UUID) : M W (option error) :=
  '(empty, err) <- isBucketEmpty projectID bucketName ;;
  match err with
  | Some e => ret (Some e)
  | None =>
      if negb empty then ret (Some (class_New ErrBucketNotEmpty ""))
      else call (EvDeleteBucket bucketName projectID)
                (buckets_DeleteBucket bucketName projectID)
  end.

(** The [DeletePieces] callback handed to the metabase: it forwards the batch
    to [deleteSegmentPieces], which returns nothing, and returns nil. *)
Definition DeletePieces (deleted : list DeletedSegmentInfo) (w : W) : option error * W :=
  (None, deleteSegmentPieces deleted w).

(** [deleteBucketObjects]: the drain. *)
Definition deleteBucketObjects (projectID : UUID) (bucketName : bytes)
  : M W (Z * option error) :=
  let bucketLocation := {| locProjectID := projectID; BucketName := bucketName |} in
  '(deletedObjects, err) <-
    call (EvDeleteBucketObjects bucketLocation)
         (metabase_DeleteBucketObjects bucketLocation DeletePieces) ;;
  ret (deletedObjects, class_Wrap MetainfoError err).

(** [deleteBucketNotEmpty]: drain, then remove.  The first result is the
    [[]byte] name, nil on the failing paths. *)
Definition deleteBucketNotEmpty (projectID : UUID) (bucketName : bytes)
  : M W (option bytes * Z * option error) :=
  '(deletedCount, err) <- deleteBucketObjects projectID bucketName ;;
  match err with
  | Some e =>
      logError "internal" None e ;;;
      ret (None, 0, Some (rpcstatus_Error Internal (err_Error e)))
  | None =>
      err <- deleteBucket bucketName projectID ;;
      match err with
      | Some e =>
          if Has ErrBucketNotEmpty e then
            ret (None, deletedCount,
                 Some (rpcstatus_Error FailedPrecondition
                         "cannot delete the bucket because it's being used by another process"))
          else if Has ErrBucketNotFound e then
            ret (Some bucketName, 0, None)
          else
            logError "internal" None e ;;;
            ret (None, deletedCount, Some (rpcstatus_Error Internal (err_Error e)))
      | None => ret (Some bucketName, deletedCount, None)
      end
  end.

(** The three checks [DeleteBucket] asks of the gate: Delete is mandatory,
    Read and List are optional and report into [canRead] and [canList]. *)
Definition deletePermissions (name : bytes) (now : Time) : list verifyPermission :=
  [ {| action := {| Op := ActionDelete; ActionBucket := name;
                    EncryptedPath := ""; ActionTime := now |};
       optional := false |};
    {| action := {| Op := ActionRead; ActionBucket := name;
                    EncryptedPath := ""; ActionTime := now |};
       optional := true |};
    {| action := {| Op := ActionList; ActionBucket := name;
                    EncryptedPath := ""; ActionTime := now |};
       optional := true |} ].

(** [DeleteBucket]. *)
Definition DeleteBucket (req : BucketDeleteRequest.t) (now : Time)
  : M W (reply BucketDeleteResponse.t) :=
  let name := BucketDeleteRequest.Name req in
  match validateAuthN (BucketDeleteRequest.Header req) (deletePermissions name now) with
  | inr err => ret (None, Some err)
  | inl (keyInfo, flags) =>
  let canRead := nth 1 flags false in
  let canList := nth 2 flags false in
  match validateBucket name with
  | Some err => ret (None, Some (rpcstatus_Error InvalidArgument (err_Error err)))
  | None =>
  fetched <-
    (if canRead || canList then
       '(bucket, err) <-
         call (EvGetMinimalBucket name (kiProjectID keyInfo))
              (buckets_GetMinimalBucket name (kiProjectID keyInfo)) ;;
       match err with
       | Some e =>
           if Has ErrBucketNotFound e
           then ret (inr (None, Some (rpcstatus_Error NotFound (err_Error e))))
           else ret (inr (None, Some e))
       | None =>
           '(convBucket, err) <-
             lift (convertBucketToProto bucket (Some (defaultRS endpoint))
                     (MaxSegmentSize endpoint)) ;;
           match err with
           | Some e => ret (inr (None, Some e))
           | None => ret (inl convBucket)
           end
       end
     else ret (inl None)) ;;
  match fetched : option pbBucket + reply BucketDeleteResponse.t with
  | inr early => ret early
  | inl convBucket =>
  err <- deleteBucket name (kiProjectID keyInfo) ;;
  match err with
  | Some e =>
      if negb canRead && negb canList then
        ret (Some BucketDeleteResponse.empty, None)
      else if Has ErrBucketNotEmpty e then
        if negb (BucketDeleteRequest.DeleteAll req) || negb canList then
          ret (None, Some (rpcstatus_Error FailedPrecondition (err_Error e)))
        else
          '(_, deletedObjCount, err) <- deleteBucketNotEmpty (kiProjectID keyInfo) name ;;
          match err with
          | Some e => ret (None, Some e)
          | None =>
              ret (Some {| BucketDeleteResponse.Bucket := convBucket;
                           BucketDeleteResponse.DeletedObjectsCount := deletedObjCount |},
                   None)
          end
      else if Has ErrBucketNotFound e then
        ret (Some {| BucketDeleteResponse.Bucket := convBucket;
                     BucketDeleteResponse.DeletedObjectsCount := 0 |}, None)
      else
        logError "internal" None e ;;;
        ret (None, Some (rpcstatus_Error Internal (err_Error e)))
  | None =>
      ret (Some {| BucketDeleteResponse.Bucket := convBucket;
                   BucketDeleteResponse.DeletedObjectsCount := 0 |}, None)
  end end end end.

(** [ListBuckets].  [int(req.Limit)] widens; [storj.ListDirection] is an
    [int8], so the direction is narrowed. *)
Definition ListBuckets (req : BucketListRequest.t) (now : Time)
  : M W (reply BucketListResponse.t) :=
  let header := BucketListRequest.Header req in
  let action := {| Op := ActionRead; ActionBucket := "";
                   EncryptedPath := ""; ActionTime := now |} in
  match validateAuth header action with
  | inr err => ret (None, Some err)
  | inl keyInfo =>
  match getAllowedBuckets header action with
  | (_, Some err) => ret (None, Some err)
  | (allowedBuckets, None) =>
  let listOpts := {| Cursor := BucketListRequest.Cursor req;
                     Limit := BucketListRequest.Limit req;
                     Direction := wrap 8 (BucketListRequest.Direction req) |} in
  '(bucketList, err) <-
    call (EvListBuckets (kiProjectID keyInfo) listOpts allowedBuckets)
         (buckets_ListBuckets (kiProjectID keyInfo) listOpts allowedBuckets) ;;
  match err with
  | Some e => ret (None, Some e)
  | None =>
      ret (Some {| BucketListResponse.Items :=
                     map (fun item => {| BucketListItem.Name := sbName item;
                                         BucketListItem.CreatedAt := Created item |})
                         (Items bucketList);
                   BucketListResponse.More := More bucketList |}, None)
  end end end.

(** [CountBuckets]. *)
Definition CountBuckets (projectID : UUID) : M W (Z * option error) :=
  '(count, err) <- call (EvCountBuckets projectID) (buckets_CountBuckets projectID) ;;
  match err with
  | Some e => ret (0, Some e)
  | None => ret (count, None)
  end.

End Endpoints.

(** ** An in-memory world

    Modelled from the spec: the stores behind the interfaces (sections 4.2,
    4.3 and 6), none of which is in the files at hand: a catalog, a metabase
    and a piece deletion service held in memory, for running the endpoints on
    concrete requests.  Other requests run in between the calls of the one
    under study: [script] says what happens just before each next call on a
    store.  The theorems on the endpoints hold for every [Collaborators];
    this one serves their instances. *)

Module Mem.

Record object : Type := {
  obj_project : UUID;
  obj_bucket : string;
  obj_key : string;
  obj_segments : list DeletedSegmentInfo
}.

Inductive interference : Type :=
| Quiet
| PutObject (o : object)
| DropBucket (projectID : UUID) (name : string)
| Fail (e : error).

Record world : Type := {
  catalog : list storjBucket;
  objects : list object;
  overrides : list (UUID * Z);
  script : list interference;
  notifier_up : bool;
  notified : list DeletedSegmentInfo;
  lost : list DeletedSegmentInfo;
  next_uuid : UUID;
  clock : Time
}.

Definition with_catalog (c : list storjBucket) (w : world) : world :=
  {| catalog := c; objects := objects w; overrides := overrides w;
     script := script w; notifier_up := notifier_up w; notified := notified w;
     lost := lost w; next_uuid := next_uuid w; clock := clock w |}.

Definition with_objects (o : list object) (w : world) : world :=
  {| catalog := catalog w; objects := o; overrides := overrides w;
     script := script w; notifier_up := notifier_up w; notified := notified w;
     lost := lost w; next_uuid := next_uuid w; clock := clock w |}.

Definition with_script (s : list interference) (w : world) : world :=
  {| catalog := catalog w; objects := objects w; overrides := overrides w;
     script := s; notifier_up := notifier_up w; notified := notified w;
     lost := lost w; next_uuid := next_uuid w; clock := clock w |}.

Definition is_bucket (projectID : UUID) (name : string) (b : storjBucket) : bool :=
  (ProjectID b =? projectID) && String.eqb (sbName b) name.

Definition in_bucket (loc : BucketLocation) (o : object) : bool :=
  (obj_project o =? locProjectID loc) && String.eqb (obj_bucket o) (BucketName loc).

(** The next entry of the script happens. *)
Definition step (w : world) : option error * world :=
  match script w with
  | [] => (None, w)
  | i :: rest =>
      let w' := with_script rest w in
      match i with
      | Quiet => (None, w')
      | PutObject o => (None, with_objects (o :: objects w') w')
      | DropBucket p n =>
          (None, with_catalog (filter (fun b => negb (is_bucket p n b)) (catalog w')) w')
      | Fail e => (Some e, w')
      end
  end.

Definition notFound (name : string) : error := class_New ErrBucketNotFound name.

Definition GetMinimalBucket (name : bytes) (projectID : UUID) (w : world)
  : (Bucket * option error) * world :=
  match step w with
  | (Some e, w') => ((Bucket_zero, Some e), w')
  | (None, w') =>
      match find (is_bucket projectID name) (catalog w') with
      | Some b => (({| Name := sbName b; CreatedAt := Created b |}, None), w')
      | None => ((Bucket_zero, Some (notFound name)), w')
      end
  end.

Definition HasBucket (name : bytes) (projectID : UUID) (w : world)
  : (bool * option error) * world :=
  match step w with
  | (Some e, w') => ((false, Some e), w')
  | (None, w') => ((existsb (is_bucket projectID name) (catalog w'), None), w')
  end.

Definition CountBuckets (projectID : UUID) (w : world) : (Z * option error) * world :=
  match step w with
  | (Some e, w') => ((0, Some e), w')
  | (None, w') =>
      ((Z.of_nat (List.length (filter (fun b => ProjectID b =? projectID) (catalog w'))),
        None), w')
  end.

Definition CreateBucket (b : storjBucket) (w : world)
  : (storjBucket * option error) * world :=
  match step w with
  | (Some e, w') => ((storjBucket_zero, Some e), w')
  | (None, w') =>
      if existsb (is_bucket (ProjectID b) (sbName b)) (catalog w')
      then ((storjBucket_zero,
             Some (class_New (ForeignClass "bucket already exists") (sbName b))), w')
      else
        let stored := {| ID := ID b; sbName := sbName b; ProjectID := ProjectID b;
                         PartnerID := PartnerID b; Created := clock w' |} in
        ((stored, None), with_catalog (catalog w' ++ [stored]) w')
  end.

Definition DeleteBucket (name : bytes) (projectID : UUID) (w : world)
  : option error * world :=
  match step w with
  | (Some e, w') => (Some e, w')
  | (None, w') =>
      if existsb (is_bucket projectID name) (catalog w')
      then (None,
            with_catalog (filter (fun b => negb (is_bucket projectID name b)) (catalog w')) w')
      else (Some (notFound name), w')
  end.

Definition allows (allowed : AllowedBuckets) (name : string) : bool :=
  All allowed || existsb (String.eqb name) (Buckets allowed).

Definition ListBuckets (projectID : UUID) (opts : BucketListOptions)
  (allowed : AllowedBuckets) (w : world) : (BucketList * option error) * world :=
  match step w with
  | (Some e, w') => (({| More := false; Items := [] |}, Some e), w')
  | (None, w') =>
      let visible :=
        filter (fun b => (ProjectID b =? projectID) && allows allowed (sbName b)
                         && String.ltb (Cursor opts) (sbName b))
               (catalog w') in
      let n := Z.to_nat (Limit opts) in
      (({| More := (n <? List.length visible)%nat; Items := firstn n visible |}, None), w')
  end.

Definition GetMaxBuckets (projectID : UUID) (w : world)
  : (option Z * option error) * world :=
  match step w with
  | (Some e, w') => ((None, Some e), w')
  | (None, w') =>
      ((option_map snd (find (fun o => fst o =? projectID) (overrides w')), None), w')
  end.

Definition BucketEmpty (loc : BucketLocation) (w : world)
  : (bool * option error) * world :=
  match step w with
  | (Some e, w') => ((false, Some e), w')
  | (None, w') => ((negb (existsb (in_bucket loc) (objects w')), None), w')
  end.

(** The walk of the drain: each object of the bucket is removed and its
    segments go to the callback; an error of the callback stops the walk. *)
Fixpoint walk (cb : list DeletedSegmentInfo -> world -> option error * world)
  (todo : list object) (count : Z) (w : world) : (Z * option error) * world :=
  match todo with
  | [] => ((count, None), w)
  | o :: rest =>
      let w1 := with_objects
                  (filter (fun x => negb (String.eqb (obj_key x) (obj_key o)
                                          && in_bucket {| locProjectID := obj_project o;
                                                          BucketName := obj_bucket o |} x))
                          (objects w)) w in
      match cb (obj_segments o) w1 with
      | (Some e, w2) => ((count + 1, Some e), w2)
      | (None, w2) => walk cb rest (count + 1) w2
      end
  end.

Definition DeleteBucketObjects (loc : BucketLocation)
  (cb : list DeletedSegmentInfo -> world -> option error * world) (w : world)
  : (Z * option error) * world :=
  match step w with
  | (Some e, w') => ((0, Some e), w')
  | (None, w') => walk cb (filter (in_bucket loc) (objects w')) 0 w'
  end.

(** The piece deletion service either takes a batch or, when it is down,
    loses it. *)
Definition deleteSegmentPieces (deleted : list DeletedSegmentInfo) (w : world) : world :=
  {| catalog := catalog w; objects := objects w; overrides := overrides w;
     script := script w; notifier_up := notifier_up w;
     notified := if notifier_up w then notified w ++ deleted else notified w;
     lost := if notifier_up w then lost w else lost w ++ deleted;
     next_uuid := next_uuid w; clock := clock w |}.

(** Attribution keeps no books here; a failure of its store is an Internal
    error. *)
Definition ensureAttribution (header : RequestHeader) (keyInfo : KeyInfo) (name : bytes)
  (w : world) : option error * world :=
  match step w with
  | (Some e, w') => (Some (rpcstatus_Error Internal (err_Error e)), w')
  | (None, w') => (None, w')
  end.

Definition New (w : world) : (UUID * option error) * world :=
  ((next_uuid w, None),
   {| catalog := catalog w; objects := objects w; overrides := overrides w;
      script := script w; notifier_up := notifier_up w; notified := notified w;
      lost := lost w; next_uuid := next_uuid w + 1; clock := clock w |}).

(** The bucket name grammar: lowercase letters, digits, hyphen and period,
    three to sixty-three of them. *)
Definition name_char (a : ascii) : bool :=
  let n := nat_of_ascii a in
  ((97 <=? n) && (n <=? 122) || (48 <=? n) && (n <=? 57) || (n =? 45) || (n =? 46))%nat.

Definition validateBucket (name : bytes) : option error :=
  if ((3 <=? String.length name) && (String.length name <=? 63))%nat
     && forallb name_char (list_ascii_of_string name)
  then None
  else Some (errorString "invalid bucket name").

Definition hex_digit (a : ascii) : option Z :=
  let n := nat_of_ascii a in
  if ((48 <=? n) && (n <=? 57))%nat then Some (Z.of_nat n - 48)
  else if ((97 <=? n) && (n <=? 102))%nat then Some (Z.of_nat n - 87)
  else None.

Fixpoint hex_value (digits : list ascii) (acc : Z) : option Z :=
  match digits with
  | [] => Some acc
  | d :: rest =>
      match hex_digit d with
      | Some v => hex_value rest (16 * acc + v)
      | None => None
      end
  end.

(** A decoder that takes thirty-two hexadecimal digits and touches the
    receiver only when it succeeds. *)
Definition UnmarshalJSON (b : bytes) (receiver : UUID) : UUID * option error :=
  if (String.length b =? 32)%nat then
    match hex_value (list_ascii_of_string b) 0 with
    | Some v => (v, None)
    | None => (receiver, Some (errorString "uuid: invalid string"))
    end
  else (receiver, Some (errorString "uuid: invalid string")).

(** A decoder that writes what it has read so far before it fails. *)
Definition UnmarshalJSON_partial (b : bytes) (receiver : UUID) : UUID * option error :=
  match hex_value (list_ascii_of_string (substring 0 2 b)) 0 with
  | Some v => if (String.length b =? 32)%nat
              then UnmarshalJSON b receiver
              else (v, Some (errorString "uuid: invalid string"))
  | None => (receiver, Some (errorString "uuid: invalid string"))
  end.

End Mem.

(** The in-memory world behind the interfaces; the decoder of partner ids is
    left to choose. *)
Definition MemCollaborators (unmarshal : bytes -> UUID -> UUID * option error)
  : Collaborators Mem.world :=
  {| validateBucket := Mem.validateBucket;
     uuid_UnmarshalJSON := unmarshal;
     uuid_New := Mem.New;
     buckets_GetMinimalBucket := Mem.GetMinimalBucket;
     buckets_HasBucket := Mem.HasBucket;
     buckets_CountBuckets := Mem.CountBuckets;
     buckets_CreateBucket := Mem.CreateBucket;
     buckets_DeleteBucket := Mem.DeleteBucket;
     buckets_ListBuckets := Mem.ListBuckets;
     projects_GetMaxBuckets := Mem.GetMaxBuckets;
     metabase_BucketEmpty := Mem.BucketEmpty;
     metabase_DeleteBucketObjects := Mem.DeleteBucketObjects;
     deleteSegmentPieces := Mem.deleteSegmentPieces;
     ensureAttribution := Mem.ensureAttribution |}.

(** ** Requests and worlds to run

    One project with two buckets: "photos" holds three objects, "docs" is
    empty. *)

Module Scenario.

Definition everything : AllowedBuckets := {| All := true; Buckets := [] |}.

(** A credential of project 7 that never expires and holds the operations
    [ops] on every bucket. *)
Definition credential (ops : list ActionType) : Credential :=
  {| cred_project := 7;
     cred_expired := fun _ => false;
     cred_grants := fun a => existsb (ActionType_eqb (Op a)) ops;
     cred_GetAllowedBuckets := fun _ => (everything, None) |}.

Definition owner : Credential :=
  credential [ActionRead; ActionWrite; ActionList; ActionDelete].
Definition deleter : Credential := credential [ActionDelete].
Definition reader : Credential := credential [ActionRead; ActionDelete].
Definition lister : Credential := credential [ActionList].

Definition header (c : Credential) : RequestHeader :=
  {| ApiKey := inl c; UserAgent := "uplink" |}.

Definition segment (n : Z) : DeletedSegmentInfo :=
  {| RootPieceID := n; Pieces := [11; 12; 13] |}.

Definition photo (key : string) (n : Z) : Mem.object :=
  {| Mem.obj_project := 7; Mem.obj_bucket := "photos"; Mem.obj_key := key;
     Mem.obj_segments := [segment n] |}.

Definition photos : storjBucket :=
  {| ID := 1; sbName := "photos"; ProjectID := 7; PartnerID := 0; Created := 100 |}.

Definition docs : storjBucket :=
  {| ID := 2; sbName := "docs"; ProjectID := 7; PartnerID := 0; Created := 110 |}.

(** The world, with what other requests do before each next call, the quota
    override of project 7 if any, and the piece deletion service up or down. *)
Definition world (script : list Mem.interference) (override : list (UUID * Z))
  (notifier_up : bool) : Mem.world :=
  {| Mem.catalog := [photos; docs];
     Mem.objects := [photo "a" 1; photo "b" 2; photo "c" 3];
     Mem.overrides := override;
     Mem.script := script;
     Mem.notifier_up := notifier_up;
     Mem.notified := [];
     Mem.lost := [];
     Mem.next_uuid := 50;
     Mem.clock := 200 |}.

Definition calm : Mem.world := world [] [] true.

Definition endpoint : Endpoint :=
  {| defaultRS := {| RSType := 1; MinReq := 29; Total := 80; RepairThreshold := 35;
                     SuccessThreshold := 65; ErasureShareSize := 256 |};
     MaxSegmentSize := 67108864;
     ProjectLimits_MaxBuckets := 100 |}.

Definition delete (c : Credential) (name : bytes) (all : bool) : BucketDeleteRequest.t :=
  {| BucketDeleteRequest.Header := header c;
     BucketDeleteRequest.Name := name;
     BucketDeleteRequest.DeleteAll := all |}.

(** A create request that asks for its own cipher, segment size and
    redundancy. *)
Definition create (c : Credential) (name : bytes) (partner : bytes) : BucketCreateRequest.t :=
  {| BucketCreateRequest.Header := header c;
     BucketCreateRequest.Name := name;
     BucketCreateRequest.PathCipher := ENC_SECRETBOX;
     BucketCreateRequest.DefaultSegmentSize := 1024;
     BucketCreateRequest.DefaultRedundancyScheme :=
       Some {| RSType := 1; MinReq := 2; Total := 4; RepairThreshold := 3;
               SuccessThreshold := 4; ErasureShareSize := 512 |};
     BucketCreateRequest.DefaultEncryptionParameters :=
       Some {| EPCipherSuite := ENC_SECRETBOX; BlockSize := 4096 |};
     BucketCreateRequest.PartnerId := partner |}.

Definition get (c : Credential) (name : bytes) : BucketGetRequest.t :=
  {| BucketGetRequest.Header := header c; BucketGetRequest.Name := name |}.

Definition listing (c : Credential) : BucketListRequest.t :=
  {| BucketListRequest.Header := header c;
     BucketListRequest.Cursor := "";
     BucketListRequest.Limit := 10;
     BucketListRequest.Direction := 2 |}.

(** The wire form of "photos" under the defaults of [endpoint]. *)
Definition photos_wire : pbBucket :=
  {| pbName := "photos";
     pbCreatedAt := 100;
     PathCipher := ENC_AESGCM;
     DefaultSegmentSize := 67108864;
     DefaultRedundancyScheme := Some (defaultRS endpoint);
     DefaultEncryptionParameters :=
       Some {| EPCipherSuite := ENC_AESGCM; BlockSize := 7424 |} |}.

(** The instant of the requests, and the collaborators they run against. *)
Definition now : Time := 150.

Definition mem : Collaborators Mem.world := MemCollaborators Mem.UnmarshalJSON.

(** The state a request starts in: a world and an empty trace. *)
Definition fresh (w : Mem.world) : Mem.world * list Event := (w, []).

End Scenario.

(** ** Vocabulary of the statements *)

(** The action of operation [op] on bucket [name] at [now], as the endpoints
    build it. *)
Definition actionOn (op : ActionType) (name : bytes) (now : Time) : Action :=
  {| Op := op; ActionBucket := name; EncryptedPath := ""; ActionTime := now |}.

(** The response of a delete carries no bucket. *)
Definition withholds_bucket (r : reply BucketDeleteResponse.t) : Prop :=
  match fst r with
  | Some resp => BucketDeleteResponse.Bucket resp = None
  | None => True
  end.

(** The wire bucket carries the defaults of the endpoint. *)
Definition carries_defaults (endpoint : Endpoint) (b : pbBucket) : Prop :=
  PathCipher b = ENC_AESGCM /\
  option_map EPCipherSuite (DefaultEncryptionParameters b) = Some ENC_AESGCM /\
  DefaultRedundancyScheme b = Some (defaultRS endpoint) /\
  DefaultSegmentSize b = MaxSegmentSize endpoint.

(** The message of the retryable refusal. *)
Definition in_use : error :=
  rpcstatus_Error FailedPrecondition
    "cannot delete the bucket because it's being used by another process".

(** The wire form [DeleteBucket] keeps of the bucket it fetched. *)
Definition snapshot (endpoint : Endpoint) (bucket : Bucket) : option pbBucket :=
  match convertBucketToProto bucket (Some (defaultRS endpoint)) (MaxSegmentSize endpoint) with
  | Done (convBucket, _) => convBucket
  | Panicked => None
  end.

(** The caller of the endpoint is handed a response with this count. *)
Definition delivers_count (r : reply BucketDeleteResponse.t) (n : Z) : Prop :=
  exists resp, fst r = Some resp /\ BucketDeleteResponse.DeletedObjectsCount resp = n.

(** The bucket of a get response, when the call answered one. *)
Definition got_bucket (r : outcome (reply BucketGetResponse.t)) : option pbBucket :=
  match r with
  | Done (Some resp, _) => BucketGetResponse.Bucket resp
  | _ => None
  end.

(** The bucket of a create response, when the call answered one. *)
Definition created_bucket (r : outcome (reply BucketCreateResponse.t)) : option pbBucket :=
  match r with
  | Done (Some resp, _) => BucketCreateResponse.Bucket resp
  | _ => None
  end.

(** The effective maximum: the project's override when it has one, the
    configured default otherwise. *)
Definition effectiveMax (endpoint : Endpoint) (override : option Z) : Z :=
  match override with
  | Some m => m
  | None => ProjectLimits_MaxBuckets endpoint
  end.

(** The error of the quota check. *)
Definition quota_exceeded (endpoint : Endpoint) : error :=
  rpcstatus_Error ResourceExhausted
    ("number of allocated buckets ("
     ++ decimal (ProjectLimits_MaxBuckets endpoint) ++ ") exceeded")%string.

(** The options [ListBuckets] hands to the catalog. *)
Definition listOptions (req : BucketListRequest.t) : BucketListOptions :=
  {| Cursor := BucketListRequest.Cursor req;
     Limit := BucketListRequest.Limit req;
     Direction := wrap 8 (BucketListRequest.Direction req) |}.

(** ** More vocabulary *)

(** The drain, among the calls. *)
Definition drains (ev : Event) : bool :=
  match ev with
  | EvDeleteBucketObjects _ => true
  | _ => false
  end.

(** The log entry of [CreateBucket] for a failed conversion. *)
Definition logs_conversion (ev : Event) : bool :=
  match ev with
  | EvLogError msg _ _ => String.eqb msg "error while converting bucket to proto"
  | _ => false
  end.

(** Two create requests that differ, if at all, in the preferences the
    client sends along: cipher, segment size, redundancy and encryption
    parameters. *)
Definition same_but_preferences (req req' : BucketCreateRequest.t) : Prop :=
  BucketCreateRequest.Header req = BucketCreateRequest.Header req' /\
  BucketCreateRequest.Name req = BucketCreateRequest.Name req' /\
  BucketCreateRequest.PartnerId req = BucketCreateRequest.PartnerId req'.

(** The range of an [int32]. *)
Definition int32_range (x : Z) : Prop := - 2 ^ 31 <= x < 2 ^ 31.

(** The block size of a wire bucket, zero when it has no encryption
    parameters. *)
Definition block_size (b : pbBucket) : Z :=
  match DefaultEncryptionParameters b with
  | Some p => BlockSize p
  | None => 0
  end.

(** The wire form of a listing: one item per bucket of the page. *)
Definition item_of (b : storjBucket) : BucketListItem.t :=
  {| BucketListItem.Name := sbName b; BucketListItem.CreatedAt := Created b |}.

(** ** More requests and worlds to run *)

Module Cases.

(** The in-memory world with a [uuid.New] that has run out of randomness. *)
Definition without_entropy : Collaborators Mem.world :=
  {| validateBucket := Mem.validateBucket;
     uuid_UnmarshalJSON := Mem.UnmarshalJSON;
     uuid_New := fun w => (uuid_zero, Some (errorString "entropy exhausted"), w);
     buckets_GetMinimalBucket := Mem.GetMinimalBucket;
     buckets_HasBucket := Mem.HasBucket;
     buckets_CountBuckets := Mem.CountBuckets;
     buckets_CreateBucket := Mem.CreateBucket;
     buckets_DeleteBucket := Mem.DeleteBucket;
     buckets_ListBuckets := Mem.ListBuckets;
     projects_GetMaxBuckets := Mem.GetMaxBuckets;
     metabase_BucketEmpty := Mem.BucketEmpty;
     metabase_DeleteBucketObjects := Mem.DeleteBucketObjects;
     deleteSegmentPieces := Mem.deleteSegmentPieces;
     ensureAttribution := Mem.ensureAttribution |}.

(** A credential of project 7 that holds everything but cannot tell its
    allowed buckets. *)
Definition muddled : Credential :=
  {| cred_project := 7;
     cred_expired := fun _ => false;
     cred_grants := fun _ => true;
     cred_GetAllowedBuckets :=
       fun _ => (Scenario.everything, Some (errorString "unknown caveat")) |}.

(** The create request of [Scenario.create] with other preferences. *)
Definition create_plain (c : Credential) (name : bytes) (partner : bytes)
  : BucketCreateRequest.t :=
  {| BucketCreateRequest.Header := Scenario.header c;
     BucketCreateRequest.Name := name;
     BucketCreateRequest.PathCipher := ENC_NULL;
     BucketCreateRequest.DefaultSegmentSize := 0;
     BucketCreateRequest.DefaultRedundancyScheme := None;
     BucketCreateRequest.DefaultEncryptionParameters := None;
     BucketCreateRequest.PartnerId := partner |}.

(** A scheme whose share size times minimum does not fit 32 bits. *)
Definition wide : RedundancyScheme :=
  {| RSType := 1; MinReq := 65536; Total := 65540; RepairThreshold := 65537;
     SuccessThreshold := 65538; ErasureShareSize := 65536 |}.

Definition down : error := errorString "store down".

End Cases.

(** ** Proof steps *)

(** Case analysis on whatever the goal branches on next. *)
Ltac branch :=
  match goal with
  | |- context [match ?x with _ => _ end] =>
      lazymatch x with
      | context [match _ with _ => _ end] => fail
      | _ => destruct x eqn:?
      end
  end.

Ltac run :=
  unfold bind, call, ret, lift, logError, answer, world, trace in *; simpl in *.

(** ** Running the monad *)

Lemma bind_ret {W A B : Type} (a : A) (k : A -> M W B) (s : W * list Event) :
  bind (ret a) k s = k a s.
Proof. reflexivity. Qed.

Lemma bind_call {W A B : Type} (ev : Event) (f : W -> A * W) (k : A -> M W B)
  (s : W * list Event) :
  bind (call ev f) k s = k (fst (f (fst s))) (snd (f (fst s)), snd s ++ [ev]).
Proof.
  unfold bind, call. destruct (f (fst s)) as [a w']. reflexivity.
Qed.

Lemma bind_bind {W A B D : Type} (m : M W A) (k : A -> M W B) (h : B -> M W D)
  (s : W * list Event) :
  bind (bind m k) h s = bind m (fun a => bind (k a) h) s.
Proof.
  unfold bind. destruct (m s) as [[a|] s']; reflexivity.
Qed.

(** ** The gate on a delete *)

(** A well-formed, unexpired credential that holds Delete passes the gate of
    [DeleteBucket], and the two optional flags are what it holds of Read and
    List. *)
Lemma validateAuthN_delete (header : RequestHeader) (c : Credential)
  (name : bytes) (now : Time) :
  ApiKey header = inl c ->
  cred_expired c now = false ->
  cred_grants c (actionOn ActionDelete name now) = true ->
  validateAuthN header (deletePermissions name now) =
  inl ({| kiProjectID := cred_project c |},
       [true; cred_grants c (actionOn ActionRead name now);
              cred_grants c (actionOn ActionList name now)]).
Proof.
  intros Hkey Hexp Hdel.
  unfold validateAuthN, getAPIKey, deletePermissions. rewrite Hkey. simpl.
  rewrite Hexp. simpl. unfold actionOn in *. rewrite Hdel.
  destruct (cred_grants c {| Op := ActionRead; ActionBucket := name;
                             EncryptedPath := ""; ActionTime := now |});
    destruct (cred_grants c {| Op := ActionList; ActionBucket := name;
                               EncryptedPath := ""; ActionTime := now |});
    reflexivity.
Qed.

(** Whatever the gate answers on the checks of a delete, the flags of Read
    and List are what the credential holds. *)
Lemma validateAuthN_delete_flags (header : RequestHeader) (name : bytes) (now : Time)
  (keyInfo : KeyInfo) (flags : list bool) :
  validateAuthN header (deletePermissions name now) = inl (keyInfo, flags) ->
  exists c, ApiKey header = inl c /\
            kiProjectID keyInfo = cred_project c /\
            nth 1 flags false = cred_grants c (actionOn ActionRead name now) /\
            nth 2 flags false = cred_grants c (actionOn ActionList name now).
Proof.
  unfold validateAuthN, getAPIKey, deletePermissions, actionOn.
  destruct (ApiKey header) as [c|e]; [|discriminate].
  simpl. destruct (cred_expired c now); simpl; [discriminate|].
  destruct (cred_grants c {| Op := ActionDelete; ActionBucket := name;
                             EncryptedPath := ""; ActionTime := now |});
    [|discriminate].
  destruct (cred_grants c {| Op := ActionRead; ActionBucket := name;
                             EncryptedPath := ""; ActionTime := now |}) eqn:Hr;
    destruct (cred_grants c {| Op := ActionList; ActionBucket := name;
                               EncryptedPath := ""; ActionTime := now |}) eqn:Hl;
    intros H; inversion H; subst; exists c; simpl; rewrite Hr, Hl; auto.
Qed.

(** ** Delete without Read or List *)

(** C8: when the credential holds neither Read nor List, a delete that passed
    the gate and the name check answers the empty response with no error,
    whatever the internal [deleteBucket] returned: its failures (not empty,
    not found, a collaborator error) are swallowed and look like success. *)
Theorem DeleteBucket_blind_swallows_failure
  {W : Type} {C : Collaborators W} (endpoint : Endpoint)
  (req : BucketDeleteRequest.t) (now : Time) (c : Credential) (s : W * list Event) :
  let name := BucketDeleteRequest.Name req in
  ApiKey (BucketDeleteRequest.Header req) = inl c ->
  cred_expired c now = false ->
  cred_grants c (actionOn ActionDelete name now) = true ->
  cred_grants c (actionOn ActionRead name now) = false ->
  cred_grants c (actionOn ActionList name now) = false ->
  validateBucket name = None ->
  (exists err, answer (deleteBucket name (cred_project c) s) = Done err) /\
  (forall err, answer (deleteBucket name (cred_project c) s) = Done err ->
     answer (DeleteBucket endpoint req now s)
     = Done (Some BucketDeleteResponse.empty, None)) /\
  snd (DeleteBucket endpoint req now s) = snd (deleteBucket name (cred_project c) s).
Proof.
  intros name Hkey Hexp Hdel Hread Hlist Hname.
  unfold DeleteBucket. fold name.
  rewrite (validateAuthN_delete _ c name now Hkey Hexp Hdel).
  rewrite Hread, Hlist, Hname. cbn [nth orb negb andb kiProjectID].
  rewrite bind_ret.
  unfold bind, answer.
  destruct (deleteBucket name (cred_project c) s) as [[err|] s'] eqn:Hdb.
  - split; [eexists; reflexivity|]. split; [|destruct err; reflexivity].
    intros err' _. destruct err; reflexivity.
  - exfalso. revert Hdb. unfold deleteBucket, isBucketEmpty. run.
    repeat branch; discriminate.
Qed.

(** [deleteBucket] never panics. *)
Lemma deleteBucket_done {W : Type} {C : Collaborators W}
  (name : bytes) (projectID : UUID) (s : W * list Event) :
  exists err, answer (deleteBucket name projectID s) = Done err.
Proof.
  unfold deleteBucket, isBucketEmpty. run.
  repeat branch; simpl; eauto.
Qed.

(** C7: when the credential holds neither Read nor List on the bucket, a
    delete always answers, and on every path (refused by the gate, bad name,
    failed or successful deletion) the response, if there is one, has an
    empty bucket field. *)
Theorem DeleteBucket_blind_withholds_bucket
  {W : Type} {C : Collaborators W} (endpoint : Endpoint)
  (req : BucketDeleteRequest.t) (now : Time) (s : W * list Event) :
  let name := BucketDeleteRequest.Name req in
  (forall c, ApiKey (BucketDeleteRequest.Header req) = inl c ->
             cred_grants c (actionOn ActionRead name now) = false /\
             cred_grants c (actionOn ActionList name now) = false) ->
  exists r, answer (DeleteBucket endpoint req now s) = Done r /\ withholds_bucket r.
Proof.
  intros name Hblind. unfold DeleteBucket. fold name.
  destruct (validateAuthN _ _) as [[keyInfo flags]|err] eqn:Hgate.
  - destruct (validateAuthN_delete_flags _ _ _ _ _ Hgate)
      as (c & Hkey & Hpid & Hread & Hlist).
    destruct (Hblind c Hkey) as [Hr Hl].
    rewrite Hread, Hlist, Hr, Hl. cbn [orb negb andb].
    destruct (validateBucket name).
    + eexists. split; [reflexivity|exact I].
    + rewrite bind_ret. unfold bind, answer.
      destruct (deleteBucket_done name (kiProjectID keyInfo) s) as [err Herr].
      unfold answer in Herr.
      destruct (deleteBucket name (kiProjectID keyInfo) s) as [o s'].
      simpl in Herr. subst o.
      destruct err; eexists; (split; [reflexivity|]); reflexivity.
  - eexists. split; [reflexivity|exact I].
Qed.

(** ** Delete of a bucket that is not empty *)

(** C4: a delete of an existing bucket the metabase reports as not empty,
    asked without [DeleteAll] or by a credential without List (but with Read
    or List), fails with FailedPrecondition; the only calls it made are the
    catalog read and the emptiness check, so neither the catalog delete nor
    the drain ran, and the world is as those two reads left it. *)
Theorem DeleteBucket_not_empty_refused
  {W : Type} {C : Collaborators W} (endpoint : Endpoint)
  (req : BucketDeleteRequest.t) (now : Time) (c : Credential)
  (bucket : Bucket) (s : W * list Event) :
  let name := BucketDeleteRequest.Name req in
  let loc := {| locProjectID := cred_project c; BucketName := name |} in
  let canRead := cred_grants c (actionOn ActionRead name now) in
  let canList := cred_grants c (actionOn ActionList name now) in
  let w1 := snd (buckets_GetMinimalBucket name (cred_project c) (fst s)) in
  ApiKey (BucketDeleteRequest.Header req) = inl c ->
  cred_expired c now = false ->
  cred_grants c (actionOn ActionDelete name now) = true ->
  canRead || canList = true ->
  BucketDeleteRequest.DeleteAll req = false \/ canList = false ->
  validateBucket name = None ->
  fst (buckets_GetMinimalBucket name (cred_project c) (fst s)) = (bucket, None) ->
  fst (metabase_BucketEmpty loc w1) = (false, None) ->
  let r := DeleteBucket endpoint req now s in
  answer r = Done (None, Some (rpcstatus_Error FailedPrecondition
                                 (err_Error (class_New ErrBucketNotEmpty "")))) /\
  trace r = snd s ++ [EvGetMinimalBucket name (cred_project c); EvBucketEmpty loc] /\
  existsb removes [EvGetMinimalBucket name (cred_project c); EvBucketEmpty loc] = false /\
  world r = snd (metabase_BucketEmpty loc w1).
Proof.
  intros name loc canRead canList w1 Hkey Hexp Hdel Hsee Hwhy Hname Hget Hempty r.
  subst r. unfold DeleteBucket. fold name.
  rewrite (validateAuthN_delete _ c name now Hkey Hexp Hdel).
  cbn [nth kiProjectID]. fold canRead canList. rewrite Hsee, Hname.
  unfold deleteBucket, isBucketEmpty. fold loc.
  rewrite !bind_bind, bind_call.
  fold w1. rewrite Hget. cbn [fst snd].
  unfold convertBucketToProto.
  assert (Hflags : negb canRead && negb canList = false).
  { destruct canRead, canList; simpl in *; congruence. }
  assert (Hrefuse : negb (BucketDeleteRequest.DeleteAll req) || negb canList = true).
  { destruct Hwhy as [H|H]; rewrite H; simpl; auto using orb_true_r. }
  destruct ((len (Name bucket) =? 0)%nat);
    run; unfold w1 in *;
    destruct (buckets_GetMinimalBucket name (cred_project c) (fst s)) as [g wg];
    simpl in *; subst g;
    destruct (metabase_BucketEmpty loc wg) as [e we]; simpl in *; subst e; simpl;
    rewrite Hflags, Hrefuse; simpl; rewrite <- app_assoc; auto.
Qed.

(** ** The forced deletion: drain, then remove *)

(** When the drain fails, [deleteBucketNotEmpty] logs and answers Internal;
    it made no other call. *)
Lemma deleteBucketNotEmpty_drain_failed {W : Type} {C : Collaborators W}
  (projectID : UUID) (name : bytes) (s : W * list Event) (e : error) :
  let loc := {| locProjectID := projectID; BucketName := name |} in
  let d := metabase_DeleteBucketObjects loc DeletePieces (fst s) in
  let r := deleteBucketNotEmpty projectID name s in
  class_Wrap MetainfoError (snd (fst d)) = Some e ->
  answer r = Done (None, 0, Some (rpcstatus_Error Internal (err_Error e))) /\
  trace r = snd s ++ [EvDeleteBucketObjects loc; EvLogError "internal" None e] /\
  world r = snd d.
Proof.
  intros loc d r He. subst r. unfold deleteBucketNotEmpty, deleteBucketObjects.
  fold loc. rewrite !bind_bind, bind_call. fold d.
  destruct d as [[n derr] w1]. simpl in He. run. rewrite He. simpl.
  rewrite <- app_assoc. auto.
Qed.

(** When the drain succeeds, [deleteBucketNotEmpty] goes on to [deleteBucket]
    in the world the drain left. *)
Lemma deleteBucketNotEmpty_drained {W : Type} {C : Collaborators W}
  (projectID : UUID) (name : bytes) (s : W * list Event) (n : Z) :
  let loc := {| locProjectID := projectID; BucketName := name |} in
  let d := metabase_DeleteBucketObjects loc DeletePieces (fst s) in
  fst d = (n, None) ->
  deleteBucketNotEmpty projectID name s =
  bind (deleteBucket name projectID)
       (fun err =>
          match err with
          | Some e =>
              if Has ErrBucketNotEmpty e then ret (None, n, Some in_use)
              else if Has ErrBucketNotFound e then ret (Some name, 0, None)
              else bind (logError "internal" None e)
                        (fun _ => ret (None, n, Some (rpcstatus_Error Internal (err_Error e))))
          | None => ret (Some name, n, None)
          end)
       (snd d, snd s ++ [EvDeleteBucketObjects loc]).
Proof.
  intros loc d Hd. unfold deleteBucketNotEmpty, deleteBucketObjects.
  fold loc. rewrite !bind_bind, bind_call. fold d. rewrite Hd.
  reflexivity.
Qed.

(** [deleteBucket] on a bucket the metabase reports as not empty: the
    not-empty error, after the emptiness check alone. *)
Lemma deleteBucket_not_empty {W : Type} {C : Collaborators W}
  (name : bytes) (projectID : UUID) (s : W * list Event) :
  let loc := {| locProjectID := projectID; BucketName := name |} in
  fst (metabase_BucketEmpty loc (fst s)) = (false, None) ->
  deleteBucket name projectID s =
  (Done (Some (class_New ErrBucketNotEmpty "")),
   (snd (metabase_BucketEmpty loc (fst s)), snd s ++ [EvBucketEmpty loc])).
Proof.
  intros loc He. unfold deleteBucket, isBucketEmpty. fold loc.
  rewrite !bind_bind, bind_call. rewrite He. reflexivity.
Qed.

(** [deleteBucket] on a bucket the metabase reports as empty: whatever the
    catalog delete answers. *)
Lemma deleteBucket_empty {W : Type} {C : Collaborators W}
  (name : bytes) (projectID : UUID) (s : W * list Event) :
  let loc := {| locProjectID := projectID; BucketName := name |} in
  let w1 := snd (metabase_BucketEmpty loc (fst s)) in
  fst (metabase_BucketEmpty loc (fst s)) = (true, None) ->
  deleteBucket name projectID s =
  (Done (fst (buckets_DeleteBucket name projectID w1)),
   (snd (buckets_DeleteBucket name projectID w1),
    snd s ++ [EvBucketEmpty loc; EvDeleteBucket name projectID])).
Proof.
  intros loc w1 He. unfold deleteBucket, isBucketEmpty. fold loc.
  rewrite !bind_bind, bind_call. rewrite He. cbn [fst snd].
  rewrite bind_ret. cbn [negb class_Wrap]. unfold call. cbn [fst snd]. fold w1.
  destruct (buckets_DeleteBucket name projectID w1). rewrite <- app_assoc.
  reflexivity.
Qed.

(** The calls [deleteBucket] adds to the trace. *)
Lemma deleteBucket_trace {W : Type} {C : Collaborators W}
  (name : bytes) (projectID : UUID) (s : W * list Event) :
  let loc := {| locProjectID := projectID; BucketName := name |} in
  trace (deleteBucket name projectID s) = snd s ++ [EvBucketEmpty loc] \/
  trace (deleteBucket name projectID s)
  = snd s ++ [EvBucketEmpty loc; EvDeleteBucket name projectID].
Proof.
  intros loc. unfold deleteBucket, isBucketEmpty. fold loc. run.
  repeat branch; simpl; rewrite <- ?app_assoc; auto.
Qed.

(** C6: in [deleteBucketNotEmpty] the drain is the first call; the callback
    it hands to the metabase returns nil whatever the piece deletion service
    did with the batch, so the service cannot stop the walk; the catalog
    delete is in the trace only when the drain returned no error; and when
    the drain fails the call answers Internal having made no other call than
    the drain, the world staying as the drain left it. *)
Theorem deleteBucketNotEmpty_drain_before_remove
  {W : Type} {C : Collaborators W}
  (projectID : UUID) (name : bytes) (s : W * list Event) :
  let loc := {| locProjectID := projectID; BucketName := name |} in
  let d := metabase_DeleteBucketObjects loc DeletePieces (fst s) in
  let r := deleteBucketNotEmpty projectID name s in
  (forall deleted w, fst (DeletePieces deleted w) = None) /\
  (exists rest,
      trace r = snd s ++ EvDeleteBucketObjects loc :: rest /\
      (forall n p, In (EvDeleteBucket n p) rest -> snd (fst d) = None)) /\
  (forall e, snd (fst d) = Some e ->
     exists e',
       class_Wrap MetainfoError (Some e) = Some e' /\
       answer r = Done (None, 0, Some (rpcstatus_Error Internal (err_Error e'))) /\
       trace r = snd s ++ [EvDeleteBucketObjects loc; EvLogError "internal" None e'] /\
       existsb removes [EvLogError "internal" None e'] = false /\
       world r = snd d).
Proof.
  intros loc d r.
  assert (Hfail : forall e, snd (fst d) = Some e ->
     exists e',
       class_Wrap MetainfoError (Some e) = Some e' /\
       answer r = Done (None, 0, Some (rpcstatus_Error Internal (err_Error e'))) /\
       trace r = snd s ++ [EvDeleteBucketObjects loc; EvLogError "internal" None e'] /\
       existsb removes [EvLogError "internal" None e'] = false /\
       world r = snd d).
  { intros e He.
    assert (Hw : exists e', class_Wrap MetainfoError (Some e) = Some e').
    { unfold class_Wrap.
      destruct e as [m|k cause|code m|dn];
        [|destruct (class_eqb MetainfoError k)|..]; eauto. }
    destruct Hw as [e' He']. exists e'. split; [exact He'|].
    destruct (deleteBucketNotEmpty_drain_failed projectID name s e') as (Ha & Ht & Hw).
    - fold loc. fold d. rewrite He. exact He'.
    - fold loc in Ht. fold d in Hw. auto. }
  split; [reflexivity|]. split; [|exact Hfail].
  destruct (snd (fst d)) as [e|] eqn:Hd.
  - destruct (Hfail e eq_refl) as (e' & _ & _ & Ht & _).
    exists [EvLogError "internal" None e']. split; [exact Ht|].
    intros n p [H|[]]. discriminate.
  - assert (Hfst : fst d = (fst (fst d), None)).
    { destruct d as [[n derr] w1]. simpl in *. subst. reflexivity. }
    subst r. rewrite (deleteBucketNotEmpty_drained projectID name s _ Hfst).
    fold loc d.
    pose proof (deleteBucket_trace name projectID
                  (snd d, snd s ++ [EvDeleteBucketObjects loc])) as Htr.
    fold loc in Htr. cbn [snd] in Htr.
    destruct (deleteBucket_done name projectID
                (snd d, snd s ++ [EvDeleteBucketObjects loc])) as [err Herr].
    unfold bind, trace, answer in *.
    destruct (deleteBucket name projectID (snd d, snd s ++ [EvDeleteBucketObjects loc]))
      as [o [w2 tr2]].
    simpl in Herr, Htr. subst o.
    destruct err as [e|]; [destruct (Has ErrBucketNotEmpty e);
                           [|destruct (Has ErrBucketNotFound e)]|];
      unfold ret, logError; simpl;
      destruct Htr as [Htr|Htr]; rewrite Htr, <- ?app_assoc; simpl;
      eexists; (split; [reflexivity|]); auto.
Qed.

(** A delete with [DeleteAll] and List on an existing bucket the metabase
    reports as not empty takes the forced path: it is
    [deleteBucketNotEmpty], run after the catalog read and the emptiness
    check, with the count and the error passed on as the source does. *)
Lemma DeleteBucket_forced {W : Type} {C : Collaborators W} (endpoint : Endpoint)
  (req : BucketDeleteRequest.t) (now : Time) (c : Credential)
  (bucket : Bucket) (s : W * list Event) :
  let name := BucketDeleteRequest.Name req in
  let loc := {| locProjectID := cred_project c; BucketName := name |} in
  let w1 := snd (buckets_GetMinimalBucket name (cred_project c) (fst s)) in
  let w2 := snd (metabase_BucketEmpty loc w1) in
  ApiKey (BucketDeleteRequest.Header req) = inl c ->
  cred_expired c now = false ->
  cred_grants c (actionOn ActionDelete name now) = true ->
  cred_grants c (actionOn ActionList name now) = true ->
  BucketDeleteRequest.DeleteAll req = true ->
  validateBucket name = None ->
  fst (buckets_GetMinimalBucket name (cred_project c) (fst s)) = (bucket, None) ->
  fst (metabase_BucketEmpty loc w1) = (false, None) ->
  DeleteBucket endpoint req now s =
  bind (deleteBucketNotEmpty (cred_project c) name)
       (fun x =>
          match x with
          | (_, deletedObjCount, Some e) => ret (None, Some e)
          | (_, deletedObjCount, None) =>
              ret (Some {| BucketDeleteResponse.Bucket := snapshot endpoint bucket;
                           BucketDeleteResponse.DeletedObjectsCount := deletedObjCount |},
                   None)
          end)
       (w2, snd s ++ [EvGetMinimalBucket name (cred_project c); EvBucketEmpty loc]).
Proof.
  intros name loc w1 w2 Hkey Hexp Hdel Hlist Hall Hname Hget Hempty.
  unfold DeleteBucket. fold name.
  rewrite (validateAuthN_delete _ c name now Hkey Hexp Hdel).
  cbn [nth kiProjectID]. rewrite Hlist, Hname, Hall, orb_true_r.
  cbn [negb andb orb]. rewrite !andb_false_r.
  rewrite !bind_bind, bind_call. fold w1. rewrite Hget. cbn [fst snd].
  unfold snapshot, convertBucketToProto.
  destruct ((len (Name bucket) =? 0)%nat);
    rewrite !bind_bind; unfold lift at 1; unfold bind at 1;
    rewrite bind_ret;
    unfold bind at 1;
    rewrite (deleteBucket_not_empty name (cred_project c)); fold loc;
      cbn [fst snd]; try exact Hempty;
    fold w2; cbn [class_New Has class_eqb orb]; rewrite <- app_assoc; cbn [app];
    unfold bind;
    destruct (deleteBucketNotEmpty (cred_project c) name _) as [[[[nm cnt] [e|]]|] s'];
    reflexivity.
Qed.

(** What the forced path does when the emptiness check after the drain finds
    the bucket populated again. *)
Lemma deleteBucketNotEmpty_refilled {W : Type} {C : Collaborators W}
  (projectID : UUID) (name : bytes) (s : W * list Event) (n : Z) :
  let loc := {| locProjectID := projectID; BucketName := name |} in
  let d := metabase_DeleteBucketObjects loc DeletePieces (fst s) in
  fst d = (n, None) ->
  fst (metabase_BucketEmpty loc (snd d)) = (false, None) ->
  deleteBucketNotEmpty projectID name s =
  (Done (None, n, Some in_use),
   (snd (metabase_BucketEmpty loc (snd d)),
    snd s ++ [EvDeleteBucketObjects loc; EvBucketEmpty loc])).
Proof.
  intros loc d Hd He.
  rewrite (deleteBucketNotEmpty_drained projectID name s n Hd). fold loc d.
  unfold bind. rewrite (deleteBucket_not_empty name projectID); [|exact He].
  cbn [fst snd class_New Has class_eqb orb]. rewrite <- app_assoc. reflexivity.
Qed.

(** What the forced path does when the catalog delete after the drain reports
    the bucket as not found: it answers the name, no error, and the count
    zero, not the count of the drain. *)
Lemma deleteBucketNotEmpty_vanished {W : Type} {C : Collaborators W}
  (projectID : UUID) (name : bytes) (s : W * list Event) (n : Z) (e : error) :
  let loc := {| locProjectID := projectID; BucketName := name |} in
  let d := metabase_DeleteBucketObjects loc DeletePieces (fst s) in
  let w2 := snd (metabase_BucketEmpty loc (snd d)) in
  fst d = (n, None) ->
  fst (metabase_BucketEmpty loc (snd d)) = (true, None) ->
  fst (buckets_DeleteBucket name projectID w2) = Some e ->
  Has ErrBucketNotEmpty e = false ->
  Has ErrBucketNotFound e = true ->
  deleteBucketNotEmpty projectID name s =
  (Done (Some name, 0, None),
   (snd (buckets_DeleteBucket name projectID w2),
    snd s ++ [EvDeleteBucketObjects loc; EvBucketEmpty loc;
              EvDeleteBucket name projectID])).
Proof.
  intros loc d w2 Hd Hempty Hdel Hne Hnf.
  rewrite (deleteBucketNotEmpty_drained projectID name s n Hd). fold loc d.
  unfold bind. rewrite (deleteBucket_empty name projectID); [|exact Hempty].
  cbn [fst snd]. fold loc w2. rewrite Hdel, Hne, Hnf.
  rewrite <- app_assoc. reflexivity.
Qed.

(** A forced deletion whose drain fails: the endpoint answers Internal, and
    its calls were the catalog read, the emptiness check and the drain; the
    catalog delete is not among them. *)
Lemma DeleteBucket_forced_drain_failed {W : Type} {C : Collaborators W}
  (endpoint : Endpoint) (req : BucketDeleteRequest.t) (now : Time) (c : Credential)
  (bucket : Bucket) (e : error) (s : W * list Event) :
  let name := BucketDeleteRequest.Name req in
  let loc := {| locProjectID := cred_project c; BucketName := name |} in
  let w1 := snd (buckets_GetMinimalBucket name (cred_project c) (fst s)) in
  let w2 := snd (metabase_BucketEmpty loc w1) in
  let d := metabase_DeleteBucketObjects loc DeletePieces w2 in
  ApiKey (BucketDeleteRequest.Header req) = inl c ->
  cred_expired c now = false ->
  cred_grants c (actionOn ActionDelete name now) = true ->
  cred_grants c (actionOn ActionList name now) = true ->
  BucketDeleteRequest.DeleteAll req = true ->
  validateBucket name = None ->
  fst (buckets_GetMinimalBucket name (cred_project c) (fst s)) = (bucket, None) ->
  fst (metabase_BucketEmpty loc w1) = (false, None) ->
  class_Wrap MetainfoError (snd (fst d)) = Some e ->
  let r := DeleteBucket endpoint req now s in
  answer r = Done (None, Some (rpcstatus_Error Internal (err_Error e))) /\
  trace r = snd s ++ [EvGetMinimalBucket name (cred_project c); EvBucketEmpty loc;
                      EvDeleteBucketObjects loc; EvLogError "internal" None e] /\
  world r = snd d.
Proof.
  intros name loc w1 w2 d Hkey Hexp Hdel Hlist Hall Hname Hget He1 Hd r. subst r.
  rewrite (DeleteBucket_forced endpoint req now c bucket s
             Hkey Hexp Hdel Hlist Hall Hname Hget He1).
  fold name loc w1 w2.
  destruct (deleteBucketNotEmpty_drain_failed (cred_project c) name
              (w2, snd s ++ [EvGetMinimalBucket name (cred_project c); EvBucketEmpty loc]) e Hd)
    as (Ha & Ht & Hw).
  unfold bind, answer, trace, world in *. fold loc in Ht.
  destruct (deleteBucketNotEmpty (cred_project c) name _) as [o [w' tr']].
  cbn [fst snd] in *. subst o tr' w'. cbn [fst snd ret].
  rewrite <- app_assoc. auto.
Qed.

(** C2, amended: in a forced deletion whose drain completes with [n] objects
    removed and whose emptiness check then finds the bucket populated again,
    [deleteBucketNotEmpty] returns the retryable FailedPrecondition error
    together with [n], and [DeleteBucket] passes on the error alone: its
    response is nil, so the count does not reach the caller of the endpoint. *)
Theorem DeleteBucket_forced_refilled
  {W : Type} {C : Collaborators W} (endpoint : Endpoint)
  (req : BucketDeleteRequest.t) (now : Time) (c : Credential)
  (bucket : Bucket) (n : Z) (s : W * list Event) :
  let name := BucketDeleteRequest.Name req in
  let loc := {| locProjectID := cred_project c; BucketName := name |} in
  let w1 := snd (buckets_GetMinimalBucket name (cred_project c) (fst s)) in
  let w2 := snd (metabase_BucketEmpty loc w1) in
  let w3 := snd (metabase_DeleteBucketObjects loc DeletePieces w2) in
  let forced := (w2, snd s ++ [EvGetMinimalBucket name (cred_project c); EvBucketEmpty loc]) in
  ApiKey (BucketDeleteRequest.Header req) = inl c ->
  cred_expired c now = false ->
  cred_grants c (actionOn ActionDelete name now) = true ->
  cred_grants c (actionOn ActionList name now) = true ->
  BucketDeleteRequest.DeleteAll req = true ->
  validateBucket name = None ->
  fst (buckets_GetMinimalBucket name (cred_project c) (fst s)) = (bucket, None) ->
  fst (metabase_BucketEmpty loc w1) = (false, None) ->
  fst (metabase_DeleteBucketObjects loc DeletePieces w2) = (n, None) ->
  fst (metabase_BucketEmpty loc w3) = (false, None) ->
  answer (deleteBucketNotEmpty (cred_project c) name forced) = Done (None, n, Some in_use) /\
  answer (DeleteBucket endpoint req now s) = Done (None, Some in_use) /\
  fails_with FailedPrecondition (Some in_use) = true /\
  ~ delivers_count (None, Some in_use) n /\
  world (DeleteBucket endpoint req now s) = snd (metabase_BucketEmpty loc w3).
Proof.
  intros name loc w1 w2 w3 forced Hkey Hexp Hdel Hlist Hall Hname Hget He1 Hd He2.
  rewrite (DeleteBucket_forced endpoint req now c bucket s
             Hkey Hexp Hdel Hlist Hall Hname Hget He1).
  fold name loc w1 w2 forced. unfold bind.
  rewrite (deleteBucketNotEmpty_refilled (cred_project c) name forced n Hd He2).
  repeat split; auto. intros (resp & H & _). discriminate.
Qed.

(** ** The wire form of a bucket *)

Lemma convertBucketToProto_defaults (endpoint : Endpoint) (bucket : Bucket)
  (pb : pbBucket) (err : option error) :
  convertBucketToProto bucket (Some (defaultRS endpoint)) (MaxSegmentSize endpoint)
  = Done (Some pb, err) ->
  carries_defaults endpoint pb.
Proof.
  unfold convertBucketToProto.
  destruct ((len (Name bucket) =? 0)%nat); intros H; inversion H; subst.
  repeat split.
Qed.

(** C3: for a record with a non-empty name [convertBucketToProto] yields the
    record's name and creation time and, for everything else, the defaults it
    is given: the AESGCM cipher (path cipher and encryption parameters), the
    redundancy scheme and the max segment size.  Hence the bucket in any
    response of [GetBucket] or [CreateBucket] carries the endpoint's
    defaults, whatever the catalog stores and whatever the create request
    asked for. *)
Theorem wire_bucket_carries_defaults
  {W : Type} {C : Collaborators W} (endpoint : Endpoint) :
  (forall (bucket : Bucket) (rs : RedundancyScheme) (maxSegmentSize : Z),
      (0 < len (Name bucket))%nat ->
      convertBucketToProto bucket (Some rs) maxSegmentSize =
      Done (Some {| pbName := Name bucket;
                    pbCreatedAt := CreatedAt bucket;
                    PathCipher := ENC_AESGCM;
                    DefaultSegmentSize := maxSegmentSize;
                    DefaultRedundancyScheme := Some rs;
                    DefaultEncryptionParameters :=
                      Some {| EPCipherSuite := ENC_AESGCM;
                              BlockSize := int32_mul (ErasureShareSize rs) (MinReq rs) |} |},
            None)) /\
  (forall (req : BucketGetRequest.t) (now : Time) (s : W * list Event) (pb : pbBucket),
      got_bucket (answer (GetBucket endpoint req now s)) = Some pb ->
      carries_defaults endpoint pb) /\
  (forall (req : BucketCreateRequest.t) (now : Time) (s : W * list Event) (pb : pbBucket),
      created_bucket (answer (CreateBucket endpoint req now s)) = Some pb ->
      carries_defaults endpoint pb).
Proof.
  split; [|split].
  - intros bucket rs maxSegmentSize Hname. unfold convertBucketToProto.
    destruct (len (Name bucket)); [inversion Hname|reflexivity].
  - intros req now s pb. unfold GetBucket, got_bucket. run.
    repeat (branch; simpl in *; try discriminate).
    all: try (intros; discriminate).
    all: intros Hb; subst;
      match goal with
      | H : convertBucketToProto _ _ _ = Done _ |- _ =>
          exact (convertBucketToProto_defaults _ _ _ _ H)
      end.
  - intros req now s pb. unfold CreateBucket, convertProtoToBucket, created_bucket. run.
    repeat (branch; simpl in *; try discriminate).
    all: try (intros; discriminate).
    all: intros Hb; subst;
      match goal with
      | H : convertBucketToProto _ _ _ = Done _ |- _ =>
          exact (convertBucketToProto_defaults _ _ _ _ H)
      end.
Qed.

(** ** The bucket quota *)

(** C5: a create that passed the gate, the name check and the uniqueness
    check, and for which the settings store and the catalog answered the
    override and the count, fails with ResourceExhausted exactly when the
    count is at least the effective maximum; and then it stops right after
    the count, before any insertion.  Attribution, which runs after the
    insertion, is taken not to answer ResourceExhausted itself. *)
Theorem CreateBucket_quota
  {W : Type} {C : Collaborators W} (endpoint : Endpoint)
  (req : BucketCreateRequest.t) (now : Time) (keyInfo : KeyInfo)
  (override : option Z) (count : Z) (s : W * list Event) :
  let name := BucketCreateRequest.Name req in
  let projectID := kiProjectID keyInfo in
  let w1 := snd (buckets_HasBucket name projectID (fst s)) in
  let w2 := snd (projects_GetMaxBuckets projectID w1) in
  let w3 := snd (buckets_CountBuckets projectID w2) in
  let checked := [EvHasBucket name projectID; EvGetMaxBuckets projectID;
                  EvCountBuckets projectID] in
  validateAuth (BucketCreateRequest.Header req) (actionOn ActionWrite name now)
  = inl keyInfo ->
  validateBucket name = None ->
  fst (buckets_HasBucket name projectID (fst s)) = (false, None) ->
  fst (projects_GetMaxBuckets projectID w1) = (override, None) ->
  fst (buckets_CountBuckets projectID w2) = (count, None) ->
  (forall h k n w,
      fails_with ResourceExhausted (fst (ensureAttribution h k n w)) = false) ->
  let r := CreateBucket endpoint req now s in
  (exists rep, answer r = Done rep /\
               (fails_with ResourceExhausted (snd rep) = true
                <-> count >= effectiveMax endpoint override)) /\
  (count >= effectiveMax endpoint override ->
     answer r = Done (None, Some (quota_exceeded endpoint)) /\
     trace r = snd s ++ checked /\
     existsb inserts checked = false /\
     world r = w3).
Proof.
  intros name projectID w1 w2 w3 checked Hgate Hname Hhas Hmax Hcount Hattr r.
  subst r. unfold CreateBucket. fold name. unfold actionOn in Hgate.
  rewrite Hgate, Hname. fold projectID.
  rewrite bind_call. fold w1. rewrite Hhas. cbn [fst snd].
  rewrite bind_call. cbn [fst snd]. fold w2. rewrite Hmax. cbn [fst snd].
  rewrite bind_call. cbn [fst snd]. fold w3. rewrite Hcount. cbn [fst snd].
  change (match override with
          | Some m => m
          | None => ProjectLimits_MaxBuckets endpoint
          end) with (effectiveMax endpoint override).
  destruct (count >=? effectiveMax endpoint override) eqn:Hcmp.
  - apply Z.geb_le in Hcmp.
    split.
    + eexists. split; [reflexivity|]. simpl. split; intros; [lia|reflexivity].
    + intros _. unfold ret, answer, trace, world. cbn [fst snd].
      rewrite <- !app_assoc. auto.
  - assert (Hlt : count < effectiveMax endpoint override).
    { destruct (Z.geb_spec count (effectiveMax endpoint override)); [discriminate|lia]. }
    split; [|intros; lia].
    unfold convertProtoToBucket, convertBucketToProto. run.
    repeat (branch; simpl in *; try discriminate); subst.
    all: eexists; (split; [reflexivity|]); simpl.
    all: split; [|intros; lia].
    all: try (intros; discriminate).
    all: intros Habs;
      match goal with
      | H : ensureAttribution ?h ?k ?n ?w = (Some ?e, _) |- _ =>
          let A := fresh in
          pose proof (Hattr h k n w) as A; rewrite H in A; simpl in A; congruence
      end.
Qed.

(** ** The partner id of a create request *)

(** C9: once [uuid.New] has answered, [convertProtoToBucket] fails, and then
    with "Invalid uuid", exactly when decoding the partner id both fails and
    leaves a non-zero UUID behind; when a failed decoding leaves the zero
    UUID the malformed partner id is accepted and the bucket is returned with
    a zero partner id.  In [CreateBucket] a request that passed the quota
    check then goes on to the insertion, with that zero partner id, instead
    of failing with InvalidArgument. *)
Theorem convertProtoToBucket_invalid_uuid
  {W : Type} {C : Collaborators W} (endpoint : Endpoint)
  (req : BucketCreateRequest.t) (projectID : UUID) :
  let name := BucketCreateRequest.Name req in
  let dec := uuid_UnmarshalJSON (BucketCreateRequest.PartnerId req) uuid_zero in
  let accepted bucketID :=
    {| ID := bucketID; sbName := name; ProjectID := projectID;
       PartnerID := fst dec; Created := 0 |} in
  (forall (s : W * list Event) (bucketID : UUID),
      fst (uuid_New (fst s)) = (bucketID, None) ->
      let r := answer (convertProtoToBucket req projectID s) in
      (forall b e, r = Done (b, Some e) ->
                   e = errorString "Invalid uuid" /\
                   snd dec <> None /\ fst dec <> uuid_zero) /\
      (snd dec <> None -> fst dec <> uuid_zero ->
       r = Done (storjBucket_zero, Some (errorString "Invalid uuid"))) /\
      (snd dec <> None -> fst dec = uuid_zero ->
       r = Done (accepted bucketID, None) /\ PartnerID (accepted bucketID) = uuid_zero)) /\
  (forall (now : Time) (keyInfo : KeyInfo) (override : option Z) (count : Z)
          (s : W * list Event) (bucketID : UUID),
      let w1 := snd (buckets_HasBucket name projectID (fst s)) in
      let w2 := snd (projects_GetMaxBuckets projectID w1) in
      let w3 := snd (buckets_CountBuckets projectID w2) in
      kiProjectID keyInfo = projectID ->
      validateAuth (BucketCreateRequest.Header req) (actionOn ActionWrite name now)
      = inl keyInfo ->
      validateBucket name = None ->
      fst (buckets_HasBucket name projectID (fst s)) = (false, None) ->
      fst (projects_GetMaxBuckets projectID w1) = (override, None) ->
      fst (buckets_CountBuckets projectID w2) = (count, None) ->
      count < effectiveMax endpoint override ->
      fst (uuid_New w3) = (bucketID, None) ->
      snd dec <> None -> fst dec = uuid_zero ->
      exists rest,
        trace (CreateBucket endpoint req now s) =
        snd s ++ [EvHasBucket name projectID; EvGetMaxBuckets projectID;
                  EvCountBuckets projectID; EvUUIDNew;
                  EvCreateBucket (accepted bucketID)] ++ rest).
Proof.
  intros name dec accepted. split.
  - intros s bucketID Hnew r. subst r.
    unfold convertProtoToBucket. rewrite bind_call, Hnew. cbn [fst snd].
    fold dec. unfold accepted. fold name. destruct dec as [partnerID perr].
    cbn [fst snd]. unfold IsZero.
    destruct perr as [pe|]; cbn [notNil andb].
    + destruct (Z.eqb_spec partnerID uuid_zero) as [Hz|Hz]; cbn [negb];
        unfold ret, answer; cbn [fst].
      * split; [intros b e H; inversion H|].
        split; [intros _ H; contradiction|]. intros _ _. split; [reflexivity|exact Hz].
      * split; [intros b e H; inversion H; subst; repeat split; congruence|].
        split; [reflexivity|]. intros _ H; contradiction.
    + unfold ret, answer; cbn [fst].
      split; [intros b e H; inversion H|].
      split; intros H; contradiction.
  - intros now keyInfo override count s bucketID w1 w2 w3
           Hpid Hgate Hname Hhas Hmax Hcount Hlt Hnew Hfail Hzero.
    unfold CreateBucket. fold name. unfold actionOn in Hgate.
    rewrite Hgate, Hname, Hpid.
    rewrite bind_call. fold w1. rewrite Hhas. cbn [fst snd].
    rewrite bind_call. cbn [fst snd]. fold w2. rewrite Hmax. cbn [fst snd].
    rewrite bind_call. cbn [fst snd]. fold w3. rewrite Hcount. cbn [fst snd].
    change (match override with
            | Some m => m
            | None => ProjectLimits_MaxBuckets endpoint
            end) with (effectiveMax endpoint override).
    destruct (Z.geb_spec count (effectiveMax endpoint override)) as [Hge|_]; [lia|].
    unfold convertProtoToBucket. rewrite !bind_bind, bind_call. cbn [fst snd].
    rewrite Hnew. cbn [fst snd].
    fold dec. fold name. unfold accepted.
    destruct dec as [partnerID perr]. cbn [fst snd] in *. subst partnerID.
    destruct perr as [pe|]; [|contradiction]. cbn [notNil IsZero andb negb].
    change (IsZero uuid_zero) with true. cbn [negb andb].
    rewrite bind_ret, bind_call. cbn [fst snd].
    unfold convertBucketToProto. run.
    repeat (branch; simpl in *; try discriminate); subst;
      rewrite <- !app_assoc; simpl;
      eexists; repeat f_equal.
Qed.

(** ** Listing *)

(** C10: [ListBuckets] asks the gate, and then the credential for its allowed
    buckets, about the Read action on no bucket in particular.  A well-formed,
    unexpired credential that holds that Read action passes: the call goes on
    to the allow-list the credential gives for the same Read action and to the
    catalog.  A credential that holds List actions and nothing else is denied
    with Forbidden before any store is touched. *)
Theorem ListBuckets_authorizes_with_Read
  {W : Type} {C : Collaborators W}
  (req : BucketListRequest.t) (now : Time) (c : Credential) (s : W * list Event) :
  let header := BucketListRequest.Header req in
  let readAny := actionOn ActionRead "" now in
  let r := ListBuckets req now s in
  ApiKey header = inl c ->
  cred_expired c now = false ->
  (cred_grants c readAny = true ->
     validateAuth header readAny = inl {| kiProjectID := cred_project c |} /\
     match cred_GetAllowedBuckets c readAny with
     | (_, Some e) =>
         r = (Done (None, Some (rpcstatus_Error Internal
                                  ("GetAllowedBuckets: " ++ err_Error e)%string)), s)
     | (allowedBuckets, None) =>
         trace r = snd s ++ [EvListBuckets (cred_project c) (listOptions req) allowedBuckets] /\
         world r = snd (buckets_ListBuckets (cred_project c) (listOptions req)
                          allowedBuckets (fst s))
     end) /\
  (cred_grants c (actionOn ActionList "" now) = true ->
   (forall a, cred_grants c a = true -> Op a = ActionList) ->
     validateAuth header (actionOn ActionList "" now) = inl {| kiProjectID := cred_project c |} /\
     r = (Done (None, Some (deniedError Forbidden)), s)).
Proof.
  intros header readAny r Hkey Hexp. subst r readAny.
  unfold ListBuckets, actionOn. fold header.
  unfold validateAuth, validateAuthN, getAllowedBuckets, getAPIKey.
  rewrite Hkey. cbn [existsb action ActionTime orb checkPermissions optional].
  rewrite Hexp. cbn [orb]. split.
  - intros Hread. rewrite Hread.
    split; [reflexivity|].
    destruct (cred_GetAllowedBuckets c _) as [allowed [e|]]; [reflexivity|].
    fold (listOptions req). run.
    destruct (buckets_ListBuckets (cred_project c) (listOptions req) allowed (fst s))
      as [[bl [e|]] w']; simpl; auto.
  - intros Hlist Honly.
    rewrite Hlist. split; [reflexivity|].
    destruct (cred_grants c {| Op := ActionRead; ActionBucket := "";
                               EncryptedPath := ""; ActionTime := now |}) eqn:Hread.
    + apply Honly in Hread. discriminate.
    + reflexivity.
Qed.

(** ** The theorems at work on the in-memory world *)

(** The blind deleter on the populated "photos": the internal delete fails
    with not-empty, and the answer is the empty success. *)
Lemma DeleteBucket_blind_swallows_failure_witness :
  let s := Scenario.fresh Scenario.calm in
  answer (deleteBucket (C := Scenario.mem) "photos" 7 s)
  = Done (Some (class_New ErrBucketNotEmpty "")) /\
  answer (DeleteBucket (C := Scenario.mem) Scenario.endpoint
            (Scenario.delete Scenario.deleter "photos" false) Scenario.now s)
  = Done (Some BucketDeleteResponse.empty, None).
Proof.
  intros s. split; [reflexivity|].
  destruct (DeleteBucket_blind_swallows_failure (C := Scenario.mem) Scenario.endpoint
              (Scenario.delete Scenario.deleter "photos" false) Scenario.now
              Scenario.deleter s
              eq_refl eq_refl eq_refl eq_refl eq_refl eq_refl) as (_ & H & _).
  apply (H (Some (class_New ErrBucketNotEmpty ""))). reflexivity.
Defined.

(** The blind deleter on the empty "docs": deleted, and nothing about the
    bucket comes back. *)
Lemma DeleteBucket_blind_withholds_bucket_witness :
  exists r,
    answer (DeleteBucket (C := Scenario.mem) Scenario.endpoint
              (Scenario.delete Scenario.deleter "docs" true) Scenario.now
              (Scenario.fresh Scenario.calm))
    = Done r /\ withholds_bucket r.
Proof.
  apply (DeleteBucket_blind_withholds_bucket (C := Scenario.mem) Scenario.endpoint
           (Scenario.delete Scenario.deleter "docs" true) Scenario.now
           (Scenario.fresh Scenario.calm)).
  intros c H. inversion H. split; reflexivity.
Defined.

(** A reader without List asks for everything to be deleted: refused, and
    the catalog and the objects are what they were. *)
Lemma DeleteBucket_not_empty_refused_witness :
  let r := DeleteBucket (C := Scenario.mem) Scenario.endpoint
             (Scenario.delete Scenario.reader "photos" true) Scenario.now
             (Scenario.fresh Scenario.calm) in
  answer r = Done (None, Some (rpcstatus_Error FailedPrecondition "bucket not empty")) /\
  Mem.catalog (world r) = Mem.catalog Scenario.calm /\
  Mem.objects (world r) = Mem.objects Scenario.calm.
Proof.
  destruct (DeleteBucket_not_empty_refused (C := Scenario.mem) Scenario.endpoint
              (Scenario.delete Scenario.reader "photos" true) Scenario.now Scenario.reader
              {| Name := "photos"; CreatedAt := 100 |} (Scenario.fresh Scenario.calm)
              eq_refl eq_refl eq_refl eq_refl (or_intror eq_refl) eq_refl eq_refl eq_refl)
    as (Ha & _ & _ & Hw).
  split; [exact Ha|]. rewrite Hw. split; reflexivity.
Defined.

(** The metabase fails the drain: Internal, and "photos" is still in the
    catalog.  With the piece deletion service down the drain still runs to
    its end: the three objects are removed, their pieces lost, and the
    bucket record goes last. *)
Lemma deleteBucketNotEmpty_drain_before_remove_witness :
  let s := Scenario.fresh
             (Scenario.world [Mem.Fail (errorString "metabase down")] [] true) in
  let r := deleteBucketNotEmpty (C := Scenario.mem) 7 "photos" s in
  let r' := deleteBucketNotEmpty (C := Scenario.mem) 7 "photos"
              (Scenario.fresh (Scenario.world [] [] false)) in
  (answer r = Done (None, 0, Some (rpcstatus_Error Internal "metainfo: metabase down")) /\
   existsb removes (skipn 1 (trace r)) = false /\
   Mem.catalog (world r) = [Scenario.photos; Scenario.docs]) /\
  (fst (DeletePieces (C := Scenario.mem) [Scenario.segment 1]
          (Scenario.world [] [] false)) = None /\
   answer r' = Done (Some "photos", 3, None) /\
   List.length (Mem.lost (world r')) = 3%nat /\
   Mem.catalog (world r') = [Scenario.docs]).
Proof.
  intros s r r'.
  destruct (deleteBucketNotEmpty_drain_before_remove (C := Scenario.mem) 7 "photos" s)
    as (Hcb & _ & H).
  destruct (H (errorString "metabase down") eq_refl) as (e' & He' & Ha & Ht & _ & Hw).
  inversion He'. subst e'.
  split.
  - split; [exact Ha|]. split; [unfold r; rewrite Ht; reflexivity|].
    unfold r. rewrite Hw. reflexivity.
  - split; [apply Hcb|]. repeat split.
Defined.

(** The owner forces the deletion while the piece deletion service is down
    and another request uploads "d" after the drain: three objects are
    removed, the bucket is populated again, the answer is the retryable
    error. *)
Lemma DeleteBucket_forced_refilled_witness :
  let w := Scenario.world
             [Mem.Quiet; Mem.Quiet; Mem.Quiet; Mem.PutObject (Scenario.photo "d" 4)]
             [] false in
  let r := DeleteBucket (C := Scenario.mem) Scenario.endpoint
             (Scenario.delete Scenario.owner "photos" true) Scenario.now
             (Scenario.fresh w) in
  answer r = Done (None, Some in_use) /\
  Mem.objects (world r) = [Scenario.photo "d" 4] /\
  List.length (Mem.lost (world r)) = 3%nat.
Proof.
  intros w r.
  destruct (DeleteBucket_forced_refilled (C := Scenario.mem) Scenario.endpoint
              (Scenario.delete Scenario.owner "photos" true) Scenario.now Scenario.owner
              {| Name := "photos"; CreatedAt := 100 |} 3 (Scenario.fresh w)
              eq_refl eq_refl eq_refl eq_refl eq_refl eq_refl eq_refl eq_refl eq_refl eq_refl)
    as (_ & Ha & _ & _ & Hw).
  split; [exact Ha|]. unfold r. rewrite Hw. split; reflexivity.
Defined.

(** C2, as stated, fails: in that run the drain removed three objects and
    the call failed with FailedPrecondition, yet no response, hence no
    count, reaches the caller. *)
Lemma DeleteBucket_forced_refilled_count_lost :
  let w := Scenario.world
             [Mem.Quiet; Mem.Quiet; Mem.Quiet; Mem.PutObject (Scenario.photo "d" 4)]
             [] false in
  let r := DeleteBucket (C := Scenario.mem) Scenario.endpoint
             (Scenario.delete Scenario.owner "photos" true) Scenario.now
             (Scenario.fresh w) in
  exists rep,
    answer r = Done rep /\
    fails_with FailedPrecondition (snd rep) = true /\
    List.length (Mem.lost (world r)) = 3%nat /\
    ~ delivers_count rep 3.
Proof.
  intros w r. exists (None, Some in_use).
  split; [reflexivity|]. split; [reflexivity|]. split; [reflexivity|].
  intros (resp & H & _). discriminate.
Qed.

(** C1, at work: the owner forces the deletion and another request drops
    the bucket record just before the catalog delete.  The drain removed
    three objects (their pieces went to the deletion service), and both
    [deleteBucketNotEmpty] and the endpoint answer success with the count
    zero. *)
Theorem DeleteBucket_forced_vanished_reports_zero :
  let loc := {| locProjectID := 7; BucketName := "photos" |} in
  let w := Scenario.world
             [Mem.Quiet; Mem.Quiet; Mem.Quiet; Mem.Quiet; Mem.DropBucket 7 "photos"]
             [] true in
  let w2 := Scenario.world
              [Mem.Quiet; Mem.Quiet; Mem.DropBucket 7 "photos"] [] true in
  let r := DeleteBucket (C := Scenario.mem) Scenario.endpoint
             (Scenario.delete Scenario.owner "photos" true) Scenario.now
             (Scenario.fresh w) in
  fst (metabase_DeleteBucketObjects (Collaborators := Scenario.mem) loc
         (DeletePieces (C := Scenario.mem)) w2) = (3, None) /\
  answer (deleteBucketNotEmpty (C := Scenario.mem) 7 "photos" (Scenario.fresh w2))
  = Done (Some "photos", 0, None) /\
  answer r = Done (Some {| BucketDeleteResponse.Bucket := Some Scenario.photos_wire;
                           BucketDeleteResponse.DeletedObjectsCount := 0 |}, None) /\
  Mem.objects (world r) = [] /\
  List.length (Mem.notified (world r)) = 3%nat.
Proof.
  repeat split.
Qed.

(** The owner reads "photos" and creates "videos" asking for its own
    cipher, segment size and redundancy: both wire buckets carry the
    defaults of the endpoint. *)
Lemma wire_bucket_carries_defaults_witness :
  convertBucketToProto {| Name := "photos"; CreatedAt := 100 |}
    (Some (defaultRS Scenario.endpoint)) (MaxSegmentSize Scenario.endpoint)
  = Done (Some Scenario.photos_wire, None) /\
  (got_bucket (answer (GetBucket (C := Scenario.mem) Scenario.endpoint
                         (Scenario.get Scenario.owner "photos") Scenario.now
                         (Scenario.fresh Scenario.calm)))
   = Some Scenario.photos_wire /\
   carries_defaults Scenario.endpoint Scenario.photos_wire) /\
  (exists pb,
      created_bucket (answer (CreateBucket (C := Scenario.mem) Scenario.endpoint
                                (Scenario.create Scenario.owner "videos" "")
                                Scenario.now (Scenario.fresh Scenario.calm)))
      = Some pb /\
      pbName pb = "videos" /\
      carries_defaults Scenario.endpoint pb).
Proof.
  destruct (wire_bucket_carries_defaults (C := Scenario.mem) Scenario.endpoint)
    as (Hconv & Hget & Hcreate).
  split; [|split].
  - apply (Hconv {| Name := "photos"; CreatedAt := 100 |}
             (defaultRS Scenario.endpoint) (MaxSegmentSize Scenario.endpoint)).
    simpl. lia.
  - split; [reflexivity|].
    apply (Hget (Scenario.get Scenario.owner "photos") Scenario.now
             (Scenario.fresh Scenario.calm)).
    reflexivity.
  - eexists. split; [reflexivity|]. split; [reflexivity|].
    apply (Hcreate (Scenario.create Scenario.owner "videos" "") Scenario.now
             (Scenario.fresh Scenario.calm)).
    reflexivity.
Defined.

(** Attribution of the in-memory world never answers ResourceExhausted. *)
Lemma Mem_ensureAttribution_not_exhausted (h : RequestHeader) (k : KeyInfo)
  (n : bytes) (w : Mem.world) :
  fails_with ResourceExhausted (fst (Mem.ensureAttribution h k n w)) = false.
Proof.
  unfold Mem.ensureAttribution, Mem.step.
  destruct (Mem.script w) as [|[] rest]; reflexivity.
Qed.

(** Project 7 has two buckets.  With an override of two the third bucket is
    refused and the catalog is untouched; without an override the default
    of a hundred applies and "videos" is created. *)
Lemma CreateBucket_quota_witness :
  let req := Scenario.create Scenario.owner "videos" "" in
  let full := Scenario.fresh (Scenario.world [] [(7, 2)] true) in
  let r := CreateBucket (C := Scenario.mem) Scenario.endpoint req Scenario.now full in
  let r' := CreateBucket (C := Scenario.mem) Scenario.endpoint req Scenario.now
              (Scenario.fresh Scenario.calm) in
  (answer r = Done (None, Some (quota_exceeded Scenario.endpoint)) /\
   Mem.catalog (world r) = [Scenario.photos; Scenario.docs]) /\
  (exists rep, answer r' = Done rep /\
               (fails_with ResourceExhausted (snd rep) = true <-> 2 >= 100)).
Proof.
  intros req full r r'. split.
  - destruct (CreateBucket_quota (C := Scenario.mem) Scenario.endpoint req Scenario.now
                {| kiProjectID := 7 |} (Some 2) 2 full
                eq_refl eq_refl eq_refl eq_refl eq_refl
                Mem_ensureAttribution_not_exhausted) as (_ & H).
    destruct H as (Ha & _ & _ & Hw); [simpl; lia|].
    split; [exact Ha|]. unfold r. rewrite Hw. reflexivity.
  - exact (proj1 (CreateBucket_quota (C := Scenario.mem) Scenario.endpoint req Scenario.now
                    {| kiProjectID := 7 |} None 2 (Scenario.fresh Scenario.calm)
                    eq_refl eq_refl eq_refl eq_refl eq_refl
                    Mem_ensureAttribution_not_exhausted)).
Defined.

(** A partner id that is no UUID.  The decoder that leaves the receiver
    alone lets the create through with a zero partner id; the decoder that
    has written "7f" before failing makes it "Invalid uuid". *)
Lemma convertProtoToBucket_invalid_uuid_witness :
  let req := Scenario.create Scenario.owner "videos" "7f-not-a-uuid" in
  let s := Scenario.fresh Scenario.calm in
  let stored := {| ID := 50; sbName := "videos"; ProjectID := 7;
                   PartnerID := uuid_zero; Created := 0 |} in
  answer (convertProtoToBucket (C := Scenario.mem) req 7 s) = Done (stored, None) /\
  (exists rest,
      trace (CreateBucket (C := Scenario.mem) Scenario.endpoint req Scenario.now s)
      = [EvHasBucket "videos" 7; EvGetMaxBuckets 7; EvCountBuckets 7; EvUUIDNew;
         EvCreateBucket stored] ++ rest) /\
  answer (convertProtoToBucket (C := MemCollaborators Mem.UnmarshalJSON_partial) req 7 s)
  = Done (storjBucket_zero, Some (errorString "Invalid uuid")).
Proof.
  intros req s stored.
  destruct (convertProtoToBucket_invalid_uuid (C := Scenario.mem) Scenario.endpoint req 7)
    as (Hconv & Hcreate).
  destruct (convertProtoToBucket_invalid_uuid
              (C := MemCollaborators Mem.UnmarshalJSON_partial) Scenario.endpoint req 7)
    as (Hpartial & _).
  split; [|split].
  - destruct (Hconv s 50 eq_refl) as (_ & _ & H).
    apply H; [discriminate|reflexivity].
  - apply (Hcreate Scenario.now {| kiProjectID := 7 |} None 2 s 50);
      try reflexivity; discriminate.
  - destruct (Hpartial s 50 eq_refl) as (_ & H & _).
    apply H; discriminate.
Defined.

(** The owner lists; a credential that holds List alone is turned away. *)
Lemma ListBuckets_authorizes_with_Read_witness :
  let s := Scenario.fresh Scenario.calm in
  trace (ListBuckets (C := Scenario.mem) (Scenario.listing Scenario.owner) Scenario.now s)
  = [EvListBuckets 7 (listOptions (Scenario.listing Scenario.owner)) Scenario.everything] /\
  ListBuckets (C := Scenario.mem) (Scenario.listing Scenario.lister) Scenario.now s
  = (Done (None, Some (deniedError Forbidden)), s).
Proof.
  intros s. split.
  - destruct (ListBuckets_authorizes_with_Read (C := Scenario.mem)
                (Scenario.listing Scenario.owner) Scenario.now Scenario.owner s
                eq_refl eq_refl) as (H & _).
    destruct (H eq_refl) as (_ & Ht & _). exact Ht.
  - destruct (ListBuckets_authorizes_with_Read (C := Scenario.mem)
                (Scenario.listing Scenario.lister) Scenario.now Scenario.lister s
                eq_refl eq_refl) as (_ & H).
    destruct H as (_ & Hr); [reflexivity| |exact Hr].
    intros a Ha. simpl in Ha. destruct (Op a); simpl in Ha; try discriminate.
    reflexivity.
Defined.

(** ** Order of the checks *)

(** X1: an endpoint whose gate refuses answers the gate's error as it is,
    and one whose name check refuses answers InvalidArgument; in both cases
    no collaborator was called: world and trace are untouched. *)
Theorem refused_requests_touch_nothing
  {W : Type} {C : Collaborators W} (endpoint : Endpoint) (now : Time)
  (s : W * list Event) (err : error) :
  (forall req,
      validateAuth (BucketGetRequest.Header req)
        (actionOn ActionRead (BucketGetRequest.Name req) now) = inr err ->
      GetBucket endpoint req now s = (Done (None, Some err), s)) /\
  (forall req,
      validateAuth (BucketListRequest.Header req) (actionOn ActionRead "" now) = inr err ->
      ListBuckets req now s = (Done (None, Some err), s)) /\
  (forall req,
      let name := BucketCreateRequest.Name req in
      (validateAuth (BucketCreateRequest.Header req) (actionOn ActionWrite name now)
       = inr err ->
       CreateBucket endpoint req now s = (Done (None, Some err), s)) /\
      (forall keyInfo,
          validateAuth (BucketCreateRequest.Header req) (actionOn ActionWrite name now)
          = inl keyInfo ->
          validateBucket name = Some err ->
          CreateBucket endpoint req now s
          = (Done (None, Some (rpcstatus_Error InvalidArgument (err_Error err))), s))) /\
  (forall req,
      let name := BucketDeleteRequest.Name req in
      (validateAuthN (BucketDeleteRequest.Header req) (deletePermissions name now)
       = inr err ->
       DeleteBucket endpoint req now s = (Done (None, Some err), s)) /\
      (forall granted,
          validateAuthN (BucketDeleteRequest.Header req) (deletePermissions name now)
          = inl granted ->
          validateBucket name = Some err ->
          DeleteBucket endpoint req now s
          = (Done (None, Some (rpcstatus_Error InvalidArgument (err_Error err))), s))).
Proof.
  unfold actionOn. repeat split.
  - intros req H. unfold GetBucket. rewrite H. reflexivity.
  - intros req H. unfold ListBuckets. rewrite H. reflexivity.
  - intros H. unfold CreateBucket. rewrite H. reflexivity.
  - intros keyInfo H Hname. unfold CreateBucket. rewrite H, Hname. reflexivity.
  - intros H. unfold DeleteBucket. rewrite H. reflexivity.
  - intros [keyInfo flags] H Hname. unfold DeleteBucket. rewrite H, Hname. reflexivity.
Qed.

(** ** Reading a bucket *)

(** X2: how [GetBucket] reports a failed catalog read.  An error of the
    not-found class becomes NotFound and is not logged; any other error
    becomes Internal, with the error's own text, and is logged.  The catalog
    read is the only call. *)
Theorem GetBucket_catalog_error
  {W : Type} {C : Collaborators W} (endpoint : Endpoint)
  (req : BucketGetRequest.t) (now : Time) (keyInfo : KeyInfo)
  (b : Bucket) (e : error) (w1 : W) (s : W * list Event) :
  let name := BucketGetRequest.Name req in
  let read := EvGetMinimalBucket name (kiProjectID keyInfo) in
  validateAuth (BucketGetRequest.Header req) (actionOn ActionRead name now) = inl keyInfo ->
  buckets_GetMinimalBucket name (kiProjectID keyInfo) (fst s) = (b, Some e, w1) ->
  GetBucket endpoint req now s =
  if Has ErrBucketNotFound e
  then (Done (None, Some (rpcstatus_Error NotFound (err_Error e))),
        (w1, snd s ++ [read]))
  else (Done (None, Some (rpcstatus_Error Internal (err_Error e))),
        (w1, snd s ++ [read; EvLogError "internal" None e])).
Proof.
  intros name read Hgate Hget. unfold GetBucket, actionOn in *. fold name.
  rewrite Hgate. run. rewrite Hget. simpl.
  destruct (Has ErrBucketNotFound e); simpl; rewrite <- ?app_assoc; reflexivity.
Qed.

(** X3: a [GetBucket] whose catalog read succeeds answers without error
    after that one call.  A record with an empty name gives a response with
    no bucket; any other record gives a wire bucket with the record's name
    and creation time and the endpoint's defaults. *)
Theorem GetBucket_found
  {W : Type} {C : Collaborators W} (endpoint : Endpoint)
  (req : BucketGetRequest.t) (now : Time) (keyInfo : KeyInfo)
  (bucket : Bucket) (w1 : W) (s : W * list Event) :
  let name := BucketGetRequest.Name req in
  validateAuth (BucketGetRequest.Header req) (actionOn ActionRead name now) = inl keyInfo ->
  buckets_GetMinimalBucket name (kiProjectID keyInfo) (fst s) = (bucket, None, w1) ->
  GetBucket endpoint req now s =
  (Done (Some {| BucketGetResponse.Bucket := snapshot endpoint bucket |}, None),
   (w1, snd s ++ [EvGetMinimalBucket name (kiProjectID keyInfo)])) /\
  (Name bucket = "" -> snapshot endpoint bucket = None) /\
  (Name bucket <> "" ->
   exists pb, snapshot endpoint bucket = Some pb /\
              pbName pb = Name bucket /\
              pbCreatedAt pb = CreatedAt bucket /\
              carries_defaults endpoint pb).
Proof.
  intros name Hgate Hget. unfold GetBucket, actionOn in *. fold name.
  rewrite Hgate. run. rewrite Hget. simpl.
  unfold snapshot, convertBucketToProto, len.
  destruct (Name bucket) as [|a rest] eqn:Hn; simpl.
  - repeat split; congruence.
  - repeat split; try congruence. intros _. eexists. repeat split.
Qed.

(** ** Conversions *)

(** X4: [convertBucketToProto] never returns an error.  With an empty name
    it returns nil and nil, whatever the scheme, a nil one included; with a
    name and a nil scheme it panics; and it returns nil exactly for the empty
    name. *)
Theorem convertBucketToProto_outcomes
  (bucket : Bucket) (rs : option RedundancyScheme) (maxSegmentSize : Z) :
  let r := convertBucketToProto bucket rs maxSegmentSize in
  (Name bucket = "" -> r = Done (None, None)) /\
  (Name bucket <> "" -> rs = None -> r = Panicked) /\
  (forall pb err, r = Done (pb, err) ->
                  err = None /\ (pb = None <-> Name bucket = "")).
Proof.
  unfold convertBucketToProto, len.
  destruct (Name bucket) as [|a rest]; simpl.
  - repeat split; try congruence; intros; congruence.
  - split; [congruence|]. split; [intros _ H; rewrite H; reflexivity|].
    intros pb err. destruct rs; intros H; inversion H; subst.
    repeat split; congruence.
Qed.

(** X5: no run of [CreateBucket] writes the log entry "error while
    converting bucket to proto": the conversion it guards cannot fail. *)
Theorem CreateBucket_never_logs_conversion
  {W : Type} {C : Collaborators W} (endpoint : Endpoint)
  (req : BucketCreateRequest.t) (now : Time) (s : W * list Event) :
  exists added,
    trace (CreateBucket endpoint req now s) = snd s ++ added /\
    existsb logs_conversion added = false.
Proof.
  unfold CreateBucket, convertProtoToBucket, convertBucketToProto. run.
  repeat (branch; simpl in *; try discriminate).
  all: rewrite <- ?app_assoc; simpl.
  all: try (eexists; split; [reflexivity|reflexivity]).
  all: exists []; rewrite app_nil_r; split; reflexivity.
Qed.

(** X6: the block size of a wire bucket is the product of the erasure share
    size and the minimum of required shares computed in 32 bits: it is always
    an [int32], it agrees with the product modulo 2^32, and it is the product
    whenever the product is an [int32]. *)
Theorem wire_block_size_is_int32_product
  (bucket : Bucket) (rs : RedundancyScheme) (maxSegmentSize : Z) (pb : pbBucket) :
  let product := ErasureShareSize rs * MinReq rs in
  convertBucketToProto bucket (Some rs) maxSegmentSize = Done (Some pb, None) ->
  int32_range (block_size pb) /\
  (block_size pb - product) mod 2 ^ 32 = 0 /\
  (int32_range product -> block_size pb = product).
Proof.
  intros product. unfold convertBucketToProto.
  destruct ((len (Name bucket) =? 0)%nat); intros H; inversion H; subst; clear H.
  unfold block_size, int32_range. cbn [DefaultEncryptionParameters BlockSize].
  unfold int32_mul, wrap. fold product.
  change (2 ^ (32 - 1)) with (2 ^ 31).
  assert (Hpos : 0 < 2 ^ 32) by reflexivity.
  pose proof (Z.mod_pos_bound (product + 2 ^ 31) (2 ^ 32) Hpos) as Hb.
  assert (H32 : 2 ^ 32 = 2 * 2 ^ 31) by reflexivity.
  split; [lia|]. split.
  - rewrite (Z.mod_eq (product + 2 ^ 31) (2 ^ 32)) by lia.
    replace (product + 2 ^ 31 - 2 ^ 32 * ((product + 2 ^ 31) / 2 ^ 32) - 2 ^ 31 - product)
      with (- ((product + 2 ^ 31) / 2 ^ 32) * 2 ^ 32) by ring.
    apply Z.mod_mul. lia.
  - intros Hr. rewrite Z.mod_small by lia. lia.
Qed.

(** ** Creating a bucket *)

(** The steps of a create up to the quota check, for a request the check
    lets through. *)
Ltac past_quota Hgate Hname Hhas Hmax Hcount Hlt :=
  unfold CreateBucket; cbv zeta; unfold actionOn in Hgate; rewrite Hgate, Hname;
  rewrite bind_call, Hhas; cbn [fst snd];
  rewrite bind_call; cbn [fst snd]; rewrite Hmax; cbn [fst snd];
  rewrite bind_call; cbn [fst snd]; rewrite Hcount; cbn [fst snd];
  match goal with
  | |- context [?c >=? ?m] =>
      let G := fresh in
      destruct (Z.geb_spec c m) as [G|_]; [unfold effectiveMax in Hlt; lia|]
  end.

(** X7: a create for a name the catalog already has still runs attribution,
    then fails: with the error of attribution if it has one, with
    AlreadyExists otherwise.  The quota is not looked up and nothing is
    inserted. *)
Theorem CreateBucket_existing
  {W : Type} {C : Collaborators W} (endpoint : Endpoint)
  (req : BucketCreateRequest.t) (now : Time) (keyInfo : KeyInfo)
  (attributed : option error) (w1 w2 : W) (s : W * list Event) :
  let name := BucketCreateRequest.Name req in
  let header := BucketCreateRequest.Header req in
  validateAuth header (actionOn ActionWrite name now) = inl keyInfo ->
  validateBucket name = None ->
  buckets_HasBucket name (kiProjectID keyInfo) (fst s) = (true, None, w1) ->
  ensureAttribution header keyInfo name w1 = (attributed, w2) ->
  CreateBucket endpoint req now s =
  (Done (None, Some match attributed with
                    | Some e => e
                    | None => rpcstatus_Error AlreadyExists "bucket already exists"
                    end),
   (w2, snd s ++ [EvHasBucket name (kiProjectID keyInfo); EvEnsureAttribution name])).
Proof.
  intros name header Hgate Hname Hhas Hattr.
  unfold CreateBucket, actionOn in *. fold name header. rewrite Hgate, Hname.
  run. rewrite Hhas. simpl. rewrite Hattr. simpl.
  rewrite <- app_assoc. destruct attributed; reflexivity.
Qed.

(** X8: [CreateBucket] reads the header, the name and the partner id of a
    request and nothing else: two requests that differ only in the cipher,
    segment size, redundancy or encryption parameters they ask for run alike,
    in answer, world and trace. *)
Theorem CreateBucket_ignores_preferences
  {W : Type} {C : Collaborators W} (endpoint : Endpoint)
  (req req' : BucketCreateRequest.t) (now : Time) (s : W * list Event) :
  same_but_preferences req req' ->
  CreateBucket endpoint req now s = CreateBucket endpoint req' now s.
Proof.
  destruct req, req'. unfold same_but_preferences. simpl.
  intros (Hh & Hn & Hp). subst. reflexivity.
Qed.

(** X9: when [uuid.New] fails in a create that passed the quota check, the
    client is told InvalidArgument, with the text of that failure; the
    catalog insert is not reached. *)
Theorem CreateBucket_uuid_failure
  {W : Type} {C : Collaborators W} (endpoint : Endpoint)
  (req : BucketCreateRequest.t) (now : Time) (keyInfo : KeyInfo)
  (override : option Z) (count : Z) (u : UUID) (e : error)
  (w1 w2 w3 w4 : W) (s : W * list Event) :
  let name := BucketCreateRequest.Name req in
  let projectID := kiProjectID keyInfo in
  validateAuth (BucketCreateRequest.Header req) (actionOn ActionWrite name now)
  = inl keyInfo ->
  validateBucket name = None ->
  buckets_HasBucket name projectID (fst s) = (false, None, w1) ->
  projects_GetMaxBuckets projectID w1 = (override, None, w2) ->
  buckets_CountBuckets projectID w2 = (count, None, w3) ->
  count < effectiveMax endpoint override ->
  uuid_New w3 = (u, Some e, w4) ->
  CreateBucket endpoint req now s =
  (Done (None, Some (rpcstatus_Error InvalidArgument (err_Error e))),
   (w4, snd s ++ [EvHasBucket name projectID; EvGetMaxBuckets projectID;
                  EvCountBuckets projectID; EvUUIDNew])).
Proof.
  intros name projectID Hgate Hname Hhas Hmax Hcount Hlt Hnew.
  subst name projectID.
  past_quota Hgate Hname Hhas Hmax Hcount Hlt.
  unfold convertProtoToBucket. run. rewrite Hnew. simpl.
  rewrite <- !app_assoc. reflexivity.
Qed.

(** The bucket a create hands to the catalog. *)
Lemma CreateBucket_reaches_insert
  {W : Type} {C : Collaborators W} (endpoint : Endpoint)
  (req : BucketCreateRequest.t) (now : Time) (keyInfo : KeyInfo)
  (override : option Z) (count : Z) (bucketID partnerID : UUID)
  (decoded : option error) (w1 w2 w3 w4 : W) (s : W * list Event) :
  let name := BucketCreateRequest.Name req in
  let header := BucketCreateRequest.Header req in
  let projectID := kiProjectID keyInfo in
  let bucketReq := {| ID := bucketID; sbName := name; ProjectID := projectID;
                      PartnerID := partnerID; Created := 0 |} in
  validateAuth header (actionOn ActionWrite name now) = inl keyInfo ->
  validateBucket name = None ->
  buckets_HasBucket name projectID (fst s) = (false, None, w1) ->
  projects_GetMaxBuckets projectID w1 = (override, None, w2) ->
  buckets_CountBuckets projectID w2 = (count, None, w3) ->
  count < effectiveMax endpoint override ->
  uuid_New w3 = (bucketID, None, w4) ->
  uuid_UnmarshalJSON (BucketCreateRequest.PartnerId req) uuid_zero = (partnerID, decoded) ->
  decoded = None \/ partnerID = uuid_zero ->
  CreateBucket endpoint req now s =
  (let st := (w4, snd s ++ [EvHasBucket name projectID; EvGetMaxBuckets projectID;
                            EvCountBuckets projectID; EvUUIDNew]) in
   match call (EvCreateBucket bucketReq) (buckets_CreateBucket bucketReq) st with
   | (Done (bucket, Some e), st') =>
       (Done (None, Some (rpcstatus_Error Internal "unable to create bucket")),
        (fst st', snd st' ++ [EvLogError "error while creating bucket" (Some name) e]))
   | (Done (bucket, None), st') =>
       match call (EvEnsureAttribution name) (ensureAttribution header keyInfo name) st' with
       | (Done (Some e), st'') => (Done (None, Some e), st'')
       | (Done None, st'') =>
           (Done (Some {| BucketCreateResponse.Bucket :=
                            snapshot endpoint {| Name := sbName bucket;
                                                 CreatedAt := Created bucket |} |},
                  None), st'')
       | (Panicked, st'') => (Panicked, st'')
       end
   | (Panicked, st') => (Panicked, st')
   end).
Proof.
  intros name header projectID bucketReq Hgate Hname Hhas Hmax Hcount Hlt Hnew Hdec Hok.
  subst name header projectID.
  past_quota Hgate Hname Hhas Hmax Hcount Hlt.
  unfold convertProtoToBucket. run. rewrite Hnew. simpl. rewrite Hdec.
  assert (Hguard : notNil decoded && negb (IsZero partnerID) = false).
  { destruct Hok as [H|H]; subst; [reflexivity|]. apply andb_false_r. }
  rewrite Hguard. simpl. fold bucketReq. rewrite <- !app_assoc. simpl.
  destruct (buckets_CreateBucket bucketReq w4) as [[bucket [e|]] w5]; simpl.
  - rewrite <- !app_assoc. reflexivity.
  - destruct (ensureAttribution _ keyInfo _ w5) as [[e|] w6]; simpl;
      rewrite <- ?app_assoc; simpl; try reflexivity.
    unfold snapshot, convertBucketToProto, len. cbn [Name].
    destruct (sbName bucket); reflexivity.
Qed.

(** X10: when the catalog insert fails, the client is told Internal with
    the fixed text "unable to create bucket", not the text of the failure;
    the failure goes to the log with the bucket's name, and attribution does
    not run. *)
Theorem CreateBucket_insert_failure
  {W : Type} {C : Collaborators W} (endpoint : Endpoint)
  (req : BucketCreateRequest.t) (now : Time) (keyInfo : KeyInfo)
  (override : option Z) (count : Z) (bucketID partnerID : UUID)
  (decoded : option error) (partial : storjBucket) (e : error)
  (w1 w2 w3 w4 w5 : W) (s : W * list Event) :
  let name := BucketCreateRequest.Name req in
  let header := BucketCreateRequest.Header req in
  let projectID := kiProjectID keyInfo in
  let bucketReq := {| ID := bucketID; sbName := name; ProjectID := projectID;
                      PartnerID := partnerID; Created := 0 |} in
  validateAuth header (actionOn ActionWrite name now) = inl keyInfo ->
  validateBucket name = None ->
  buckets_HasBucket name projectID (fst s) = (false, None, w1) ->
  projects_GetMaxBuckets projectID w1 = (override, None, w2) ->
  buckets_CountBuckets projectID w2 = (count, None, w3) ->
  count < effectiveMax endpoint override ->
  uuid_New w3 = (bucketID, None, w4) ->
  uuid_UnmarshalJSON (BucketCreateRequest.PartnerId req) uuid_zero = (partnerID, decoded) ->
  decoded = None \/ partnerID = uuid_zero ->
  buckets_CreateBucket bucketReq w4 = (partial, Some e, w5) ->
  CreateBucket endpoint req now s =
  (Done (None, Some (rpcstatus_Error Internal "unable to create bucket")),
   (w5, snd s ++ [EvHasBucket name projectID; EvGetMaxBuckets projectID;
                  EvCountBuckets projectID; EvUUIDNew; EvCreateBucket bucketReq;
                  EvLogError "error while creating bucket" (Some name) e])).
Proof.
  intros name header projectID bucketReq Hgate Hname Hhas Hmax Hcount Hlt Hnew Hdec Hok Hins.
  subst name header projectID bucketReq.
  rewrite (CreateBucket_reaches_insert endpoint req now keyInfo override count
             bucketID partnerID decoded w1 w2 w3 w4 s
             Hgate Hname Hhas Hmax Hcount Hlt Hnew Hdec Hok).
  cbv zeta. unfold call. cbn [fst snd]. rewrite Hins.
  cbn [fst snd]. rewrite <- !app_assoc. reflexivity.
Qed.

(** X11: a create whose insert succeeds runs attribution next.  If
    attribution fails the client gets its error although the bucket is in
    the catalog; otherwise the response carries the name and the creation
    time of the record the catalog returned. *)
Theorem CreateBucket_inserted
  {W : Type} {C : Collaborators W} (endpoint : Endpoint)
  (req : BucketCreateRequest.t) (now : Time) (keyInfo : KeyInfo)
  (override : option Z) (count : Z) (bucketID partnerID : UUID)
  (decoded : option error) (stored : storjBucket) (attributed : option error)
  (w1 w2 w3 w4 w5 w6 : W) (s : W * list Event) :
  let name := BucketCreateRequest.Name req in
  let header := BucketCreateRequest.Header req in
  let projectID := kiProjectID keyInfo in
  let bucketReq := {| ID := bucketID; sbName := name; ProjectID := projectID;
                      PartnerID := partnerID; Created := 0 |} in
  validateAuth header (actionOn ActionWrite name now) = inl keyInfo ->
  validateBucket name = None ->
  buckets_HasBucket name projectID (fst s) = (false, None, w1) ->
  projects_GetMaxBuckets projectID w1 = (override, None, w2) ->
  buckets_CountBuckets projectID w2 = (count, None, w3) ->
  count < effectiveMax endpoint override ->
  uuid_New w3 = (bucketID, None, w4) ->
  uuid_UnmarshalJSON (BucketCreateRequest.PartnerId req) uuid_zero = (partnerID, decoded) ->
  decoded = None \/ partnerID = uuid_zero ->
  buckets_CreateBucket bucketReq w4 = (stored, None, w5) ->
  ensureAttribution header keyInfo name w5 = (attributed, w6) ->
  CreateBucket endpoint req now s =
  (Done match attributed with
        | Some e => (None, Some e)
        | None =>
            (Some {| BucketCreateResponse.Bucket :=
                       snapshot endpoint {| Name := sbName stored;
                                            CreatedAt := Created stored |} |}, None)
        end,
   (w6, snd s ++ [EvHasBucket name projectID; EvGetMaxBuckets projectID;
                  EvCountBuckets projectID; EvUUIDNew; EvCreateBucket bucketReq;
                  EvEnsureAttribution name])).
Proof.
  intros name header projectID bucketReq Hgate Hname Hhas Hmax Hcount Hlt Hnew Hdec Hok
         Hins Hattr.
  subst name header projectID bucketReq.
  rewrite (CreateBucket_reaches_insert endpoint req now keyInfo override count
             bucketID partnerID decoded w1 w2 w3 w4 s
             Hgate Hname Hhas Hmax Hcount Hlt Hnew Hdec Hok).
  cbv zeta. unfold call. cbn [fst snd]. rewrite Hins.
  cbn [fst snd]. rewrite Hattr. cbn [fst snd]. rewrite <- !app_assoc.
  destruct attributed; reflexivity.
Qed.

(** ** Deleting a bucket *)

(** Rewriting with what the collaborators answered, one call after the
    other. *)
Ltac answered :=
  repeat match goal with
         | H : ?f = (_, _) |- context [?f] => rewrite H; simpl
         end.

(** The gate of a delete, for a credential as in the statements below. *)
Ltac through_gate Hkey Hexp Hdel Hname :=
  unfold DeleteBucket; cbv zeta;
  rewrite (validateAuthN_delete _ _ _ _ Hkey Hexp Hdel);
  cbn [nth kiProjectID]; rewrite Hname.

(** [Class.Wrap] of an error is an error. *)
Lemma class_Wrap_some (c : class) (e : error) :
  exists e', class_Wrap c (Some e) = Some e'.
Proof.
  unfold class_Wrap. destruct e as [m|k cause|code m|d];
    [|destruct (class_eqb c k)|..]; eauto.
Qed.

Lemma class_eqb_refl (c : class) : class_eqb c c = true.
Proof. destruct c; simpl; auto using String.eqb_refl. Qed.

(** What [Class.Wrap] returns is of the class. *)
Lemma Has_class_Wrap (c : class) (e e' : error) :
  class_Wrap c (Some e) = Some e' -> Has c e' = true.
Proof.
  unfold class_Wrap.
  destruct e as [m|k cause|code m|d]; [|destruct (class_eqb c k) eqn:Hk|..];
    intros H; inversion H; subst; cbn [Has];
    rewrite ?Hk, ?class_eqb_refl; reflexivity.
Qed.

(** X12: [DeleteBucket] drains a bucket only for a request with
    [DeleteAll] from a credential that holds List.  Without [DeleteAll], or
    without List, no run calls the drain, whatever the stores answer. *)
Theorem DeleteBucket_drains_only_when_asked_and_allowed
  {W : Type} {C : Collaborators W} (endpoint : Endpoint)
  (req : BucketDeleteRequest.t) (now : Time) (s : W * list Event) :
  let name := BucketDeleteRequest.Name req in
  BucketDeleteRequest.DeleteAll req = false \/
  (forall c, ApiKey (BucketDeleteRequest.Header req) = inl c ->
             cred_grants c (actionOn ActionList name now) = false) ->
  exists added,
    trace (DeleteBucket endpoint req now s) = snd s ++ added /\
    existsb drains added = false.
Proof.
  intros name Hwhy. unfold DeleteBucket. fold name.
  destruct (validateAuthN _ _) as [[keyInfo flags]|err] eqn:Hgate;
    [|exists []; rewrite app_nil_r; split; reflexivity].
  destruct (validateAuthN_delete_flags _ _ _ _ _ Hgate) as (c & Hkey & _ & _ & Hlist).
  assert (Hcond : negb (BucketDeleteRequest.DeleteAll req) || negb (nth 2 flags false) = true).
  { destruct Hwhy as [H|H]; [rewrite H; reflexivity|].
    rewrite Hlist, (H c Hkey). apply orb_true_r. }
  clear Hgate Hlist Hwhy Hkey.
  generalize dependent (nth 2 flags false). intros canList Hcond.
  generalize (nth 1 flags false). intros canRead.
  unfold deleteBucket, isBucketEmpty, convertBucketToProto. run.
  destruct (validateBucket name); [exists []; rewrite app_nil_r; split; reflexivity|].
  destruct canRead, canList; simpl in *; rewrite ?Hcond; simpl;
    repeat (branch; simpl in *; try discriminate).
  all: rewrite <- ?app_assoc; simpl.
  all: try (eexists; split; [reflexivity|reflexivity]).
  all: try (exists []; rewrite app_nil_r; split; reflexivity).
Qed.

(** X13: a delete, by a credential with Read or List, of an existing bucket
    the metabase reports empty goes to the catalog delete.  Whether the
    catalog removes the record or reports it as not found, the answer is the
    same success: the wire form of the bucket read at the start and a count
    of zero. *)
Theorem DeleteBucket_empty_bucket
  {W : Type} {C : Collaborators W} (endpoint : Endpoint)
  (req : BucketDeleteRequest.t) (now : Time) (c : Credential)
  (bucket : Bucket) (deleted : option error) (w1 w2 w3 : W) (s : W * list Event) :
  let name := BucketDeleteRequest.Name req in
  let projectID := cred_project c in
  let loc := {| locProjectID := projectID; BucketName := name |} in
  ApiKey (BucketDeleteRequest.Header req) = inl c ->
  cred_expired c now = false ->
  cred_grants c (actionOn ActionDelete name now) = true ->
  cred_grants c (actionOn ActionRead name now)
  || cred_grants c (actionOn ActionList name now) = true ->
  validateBucket name = None ->
  buckets_GetMinimalBucket name projectID (fst s) = (bucket, None, w1) ->
  metabase_BucketEmpty loc w1 = (true, None, w2) ->
  buckets_DeleteBucket name projectID w2 = (deleted, w3) ->
  (forall e, deleted = Some e ->
             Has ErrBucketNotEmpty e = false /\ Has ErrBucketNotFound e = true) ->
  DeleteBucket endpoint req now s =
  (Done (Some {| BucketDeleteResponse.Bucket := snapshot endpoint bucket;
                 BucketDeleteResponse.DeletedObjectsCount := 0 |}, None),
   (w3, snd s ++ [EvGetMinimalBucket name projectID; EvBucketEmpty loc;
                  EvDeleteBucket name projectID])).
Proof.
  intros name projectID loc Hkey Hexp Hdel Hsee Hname Hget Hempty Hdb Hclass.
  subst name projectID loc.
  through_gate Hkey Hexp Hdel Hname. rewrite Hsee.
  unfold deleteBucket, isBucketEmpty, snapshot, convertBucketToProto, len. run.
  answered.
  destruct (Name bucket); simpl; answered;
    (destruct deleted as [e|];
     [destruct (Hclass e eq_refl) as [Hne Hnf]; rewrite Hne, Hnf|]);
    simpl; rewrite ?andb_false_r, <- ?app_assoc; simpl;
    repeat match goal with
           | |- context [negb ?b && negb ?d] =>
               replace (negb b && negb d) with false
                 by (destruct b, d; simpl in *; congruence)
           end; reflexivity.
Qed.

(** X14: a delete, by a credential with Read or List, whose catalog read
    fails stops there.  An error of the not-found class becomes NotFound;
    any other error is returned as it is, neither turned into Internal nor
    logged.  The emptiness check and the catalog delete are not called. *)
Theorem DeleteBucket_catalog_read_failed
  {W : Type} {C : Collaborators W} (endpoint : Endpoint)
  (req : BucketDeleteRequest.t) (now : Time) (c : Credential)
  (partial : Bucket) (e : error) (w1 : W) (s : W * list Event) :
  let name := BucketDeleteRequest.Name req in
  let projectID := cred_project c in
  ApiKey (BucketDeleteRequest.Header req) = inl c ->
  cred_expired c now = false ->
  cred_grants c (actionOn ActionDelete name now) = true ->
  cred_grants c (actionOn ActionRead name now)
  || cred_grants c (actionOn ActionList name now) = true ->
  validateBucket name = None ->
  buckets_GetMinimalBucket name projectID (fst s) = (partial, Some e, w1) ->
  DeleteBucket endpoint req now s =
  (Done (None, Some (if Has ErrBucketNotFound e
                     then rpcstatus_Error NotFound (err_Error e)
                     else e)),
   (w1, snd s ++ [EvGetMinimalBucket name projectID])).
Proof.
  intros name projectID Hkey Hexp Hdel Hsee Hname Hget.
  subst name projectID.
  through_gate Hkey Hexp Hdel Hname. rewrite Hsee.
  run. answered. destruct (Has ErrBucketNotFound e); reflexivity.
Qed.

(** X15: a forced deletion that meets no race: the drain removes [n]
    objects, the bucket is then empty and the catalog removes the record.
    The answer carries the wire form of the bucket read at the start and
    the count [n] of the drain, and the calls are, in this order, the catalog
    read, the emptiness check, the drain, the emptiness check again and the
    catalog delete. *)
Theorem DeleteBucket_forced_success
  {W : Type} {C : Collaborators W} (endpoint : Endpoint)
  (req : BucketDeleteRequest.t) (now : Time) (c : Credential)
  (bucket : Bucket) (n : Z) (w1 w2 w3 w4 w5 : W) (s : W * list Event) :
  let name := BucketDeleteRequest.Name req in
  let projectID := cred_project c in
  let loc := {| locProjectID := projectID; BucketName := name |} in
  ApiKey (BucketDeleteRequest.Header req) = inl c ->
  cred_expired c now = false ->
  cred_grants c (actionOn ActionDelete name now) = true ->
  cred_grants c (actionOn ActionList name now) = true ->
  BucketDeleteRequest.DeleteAll req = true ->
  validateBucket name = None ->
  buckets_GetMinimalBucket name projectID (fst s) = (bucket, None, w1) ->
  metabase_BucketEmpty loc w1 = (false, None, w2) ->
  metabase_DeleteBucketObjects loc DeletePieces w2 = (n, None, w3) ->
  metabase_BucketEmpty loc w3 = (true, None, w4) ->
  buckets_DeleteBucket name projectID w4 = (None, w5) ->
  DeleteBucket endpoint req now s =
  (Done (Some {| BucketDeleteResponse.Bucket := snapshot endpoint bucket;
                 BucketDeleteResponse.DeletedObjectsCount := n |}, None),
   (w5, snd s ++ [EvGetMinimalBucket name projectID; EvBucketEmpty loc;
                  EvDeleteBucketObjects loc; EvBucketEmpty loc;
                  EvDeleteBucket name projectID])).
Proof.
  intros name projectID loc Hkey Hexp Hdel Hlist Hall Hname Hget He1 Hd He2 Hdb.
  subst name projectID loc.
  through_gate Hkey Hexp Hdel Hname. rewrite Hlist, Hall, orb_true_r.
  unfold deleteBucketNotEmpty, deleteBucketObjects, deleteBucket, isBucketEmpty,
    snapshot, convertBucketToProto, len. run.
  rewrite Hget. simpl.
  destruct (Name bucket); simpl; rewrite He1; simpl; rewrite ?andb_false_r; simpl;
    rewrite Hd; simpl; rewrite He2; simpl; rewrite Hdb; simpl;
    rewrite <- ?app_assoc; reflexivity.
Qed.

(** X17: [deleteBucket] reaches the catalog only through an emptiness check
    that answered "empty" without error.  Otherwise it fails after that one
    call, and the record stays: with the not-empty error when the bucket has
    objects, with an error of the package's class when the check failed. *)
Theorem deleteBucket_guarded
  {W : Type} {C : Collaborators W}
  (name : bytes) (projectID : UUID) (empty : bool) (checked : option error)
  (w1 : W) (s : W * list Event) :
  let loc := {| locProjectID := projectID; BucketName := name |} in
  metabase_BucketEmpty loc (fst s) = (empty, checked, w1) ->
  (empty, checked) <> (true, None) ->
  exists err,
    deleteBucket name projectID s
    = (Done (Some err), (w1, snd s ++ [EvBucketEmpty loc])) /\
    (checked = None -> err = class_New ErrBucketNotEmpty "") /\
    (checked <> None -> Has MetainfoError err = true).
Proof.
  intros loc He Hne. unfold deleteBucket, isBucketEmpty. fold loc. run.
  rewrite He. cbn [fst snd]. destruct checked as [x|].
  - destruct (class_Wrap_some MetainfoError x) as [e' He'].
    rewrite He'. exists e'. split; [reflexivity|]. split; [congruence|].
    intros _. exact (Has_class_Wrap _ _ _ He').
  - destruct empty; [congruence|]. simpl. eexists. split; [reflexivity|].
    split; [reflexivity|congruence].
Qed.

(** X18: whatever the stores do, [deleteBucketNotEmpty] returns the bucket
    name exactly when it returns no error, and its errors are [rpcstatus]
    errors with the code Internal or FailedPrecondition: no error of a
    collaborator is passed on as it is. *)
Theorem deleteBucketNotEmpty_answers
  {W : Type} {C : Collaborators W}
  (projectID : UUID) (name : bytes) (s : W * list Event) :
  exists nm count err,
    answer (deleteBucketNotEmpty projectID name s) = Done (nm, count, err) /\
    (err = None -> nm = Some name) /\
    (err <> None ->
     nm = None /\
     (fails_with Internal err = true \/ fails_with FailedPrecondition err = true)).
Proof.
  unfold deleteBucketNotEmpty, deleteBucketObjects, deleteBucket, isBucketEmpty. run.
  repeat (branch; simpl in *; try discriminate).
  all: do 3 eexists; (split; [reflexivity|]); split; try congruence; intros _;
    split; auto.
Qed.

(** X22: a delete, by a credential with Read or List, whose catalog delete
    fails with an error that is neither of the not-empty nor of the
    not-found class answers Internal with the text of that error, and logs
    it. *)
Theorem DeleteBucket_catalog_delete_failed
  {W : Type} {C : Collaborators W} (endpoint : Endpoint)
  (req : BucketDeleteRequest.t) (now : Time) (c : Credential)
  (bucket : Bucket) (e : error) (w1 w2 w3 : W) (s : W * list Event) :
  let name := BucketDeleteRequest.Name req in
  let projectID := cred_project c in
  let loc := {| locProjectID := projectID; BucketName := name |} in
  ApiKey (BucketDeleteRequest.Header req) = inl c ->
  cred_expired c now = false ->
  cred_grants c (actionOn ActionDelete name now) = true ->
  cred_grants c (actionOn ActionRead name now)
  || cred_grants c (actionOn ActionList name now) = true ->
  validateBucket name = None ->
  buckets_GetMinimalBucket name projectID (fst s) = (bucket, None, w1) ->
  metabase_BucketEmpty loc w1 = (true, None, w2) ->
  buckets_DeleteBucket name projectID w2 = (Some e, w3) ->
  Has ErrBucketNotEmpty e = false ->
  Has ErrBucketNotFound e = false ->
  DeleteBucket endpoint req now s =
  (Done (None, Some (rpcstatus_Error Internal (err_Error e))),
   (w3, snd s ++ [EvGetMinimalBucket name projectID; EvBucketEmpty loc;
                  EvDeleteBucket name projectID; EvLogError "internal" None e])).
Proof.
  intros name projectID loc Hkey Hexp Hdel Hsee Hname Hget Hempty Hdb Hne Hnf.
  subst name projectID loc.
  through_gate Hkey Hexp Hdel Hname. rewrite Hsee.
  unfold deleteBucket, isBucketEmpty, snapshot, convertBucketToProto, len. run.
  answered.
  destruct (Name bucket); simpl; answered; rewrite Hne, Hnf;
    repeat match goal with
           | |- context [negb ?b && negb ?d] =>
               replace (negb b && negb d) with false
                 by (destruct b, d; simpl in *; congruence)
           end; simpl; rewrite <- ?app_assoc; reflexivity.
Qed.

(** X16: a forced deletion whose drain fails stops at the drain: the
    endpoint answers Internal with the text of the failure as the package
    wraps it, and logs it; what the drain had counted is dropped, and neither
    the second emptiness check nor the catalog delete is called. *)
Theorem DeleteBucket_forced_drain_error
  {W : Type} {C : Collaborators W} (endpoint : Endpoint)
  (req : BucketDeleteRequest.t) (now : Time) (c : Credential)
  (bucket : Bucket) (n : Z) (x e : error) (w1 w2 w3 : W) (s : W * list Event) :
  let name := BucketDeleteRequest.Name req in
  let projectID := cred_project c in
  let loc := {| locProjectID := projectID; BucketName := name |} in
  ApiKey (BucketDeleteRequest.Header req) = inl c ->
  cred_expired c now = false ->
  cred_grants c (actionOn ActionDelete name now) = true ->
  cred_grants c (actionOn ActionList name now) = true ->
  BucketDeleteRequest.DeleteAll req = true ->
  validateBucket name = None ->
  buckets_GetMinimalBucket name projectID (fst s) = (bucket, None, w1) ->
  metabase_BucketEmpty loc w1 = (false, None, w2) ->
  metabase_DeleteBucketObjects loc DeletePieces w2 = (n, Some x, w3) ->
  class_Wrap MetainfoError (Some x) = Some e ->
  DeleteBucket endpoint req now s =
  (Done (None, Some (rpcstatus_Error Internal (err_Error e))),
   (w3, snd s ++ [EvGetMinimalBucket name projectID; EvBucketEmpty loc;
                  EvDeleteBucketObjects loc; EvLogError "internal" None e])).
Proof.
  intros name projectID loc Hkey Hexp Hdel Hlist Hall Hname Hget He1 Hd Hwrap.
  subst name projectID loc.
  through_gate Hkey Hexp Hdel Hname. rewrite Hlist, Hall, orb_true_r.
  unfold deleteBucketNotEmpty, deleteBucketObjects, deleteBucket, isBucketEmpty,
    snapshot, convertBucketToProto, len. run.
  rewrite Hget. simpl. simpl in Hwrap.
  destruct (Name bucket); simpl; rewrite He1; simpl; rewrite ?andb_false_r; simpl;
    rewrite Hd; simpl; rewrite Hwrap; simpl;
    rewrite <- ?app_assoc; reflexivity.
Qed.

(** ** Listing, and what the endpoints leave alone *)

(** X19: a listing whose gate, allow-list and catalog call succeed answers
    the page of the catalog item by item: as many items, in the same order,
    each with the name and the creation time of its bucket, and the
    catalog's "more" flag.  The catalog is asked with the request's cursor
    and limit and with the allow-list of the credential. *)
Theorem ListBuckets_page
  {W : Type} {C : Collaborators W}
  (req : BucketListRequest.t) (now : Time) (keyInfo : KeyInfo)
  (allowed : AllowedBuckets) (page : BucketList) (w1 : W) (s : W * list Event) :
  let header := BucketListRequest.Header req in
  let readAny := actionOn ActionRead "" now in
  validateAuth header readAny = inl keyInfo ->
  getAllowedBuckets header readAny = (allowed, None) ->
  buckets_ListBuckets (kiProjectID keyInfo) (listOptions req) allowed (fst s)
  = (page, None, w1) ->
  exists items,
    ListBuckets req now s =
    (Done (Some {| BucketListResponse.Items := items;
                   BucketListResponse.More := More page |}, None),
     (w1, snd s ++ [EvListBuckets (kiProjectID keyInfo) (listOptions req) allowed])) /\
    List.length items = List.length (Items page) /\
    (forall i b, nth_error (Items page) i = Some b ->
                 nth_error items i = Some (item_of b)) /\
    Cursor (listOptions req) = BucketListRequest.Cursor req /\
    Limit (listOptions req) = BucketListRequest.Limit req.
Proof.
  intros header readAny Hgate Hallowed Hlist. subst header readAny.
  unfold actionOn in *. exists (map item_of (Items page)).
  split; [|split; [apply length_map|split; [|split; reflexivity]]].
  - unfold ListBuckets. rewrite Hgate, Hallowed. fold (listOptions req).
    run. rewrite Hlist. reflexivity.
  - intros i b Hb. rewrite nth_error_map, Hb. reflexivity.
Qed.

(** X20: [getAllowedBuckets] fails closed: with an error it returns the
    zero allow-list, which allows no bucket, and the error is an [rpcstatus]
    error, InvalidArgument for a key that does not decode and Internal for a
    credential that cannot tell its buckets.  [ListBuckets] then answers
    that error and does not ask the catalog. *)
Theorem getAllowedBuckets_fails_closed
  {W : Type} {C : Collaborators W}
  (header : RequestHeader) (a : Action) (allowed : AllowedBuckets) (err : error) :
  getAllowedBuckets header a = (allowed, Some err) ->
  allowed = AllowedBuckets_zero /\
  (fails_with InvalidArgument (Some err) = true \/
   fails_with Internal (Some err) = true) /\
  (forall (req : BucketListRequest.t) (now : Time) (keyInfo : KeyInfo)
          (s : W * list Event),
      BucketListRequest.Header req = header ->
      a = actionOn ActionRead "" now ->
      validateAuth header a = inl keyInfo ->
      ListBuckets req now s = (Done (None, Some err), s)).
Proof.
  intros Hget. split; [|split].
  - revert Hget. unfold getAllowedBuckets.
    destruct (getAPIKey header) as [key|e]; [|intros H; inversion H; reflexivity].
    destruct (cred_GetAllowedBuckets key a) as [ab [e|]]; intros H; inversion H.
    reflexivity.
  - revert Hget. unfold getAllowedBuckets.
    destruct (getAPIKey header) as [key|e]; [|intros H; inversion H; auto].
    destruct (cred_GetAllowedBuckets key a) as [ab [e|]]; intros H; inversion H.
    auto.
  - intros req now keyInfo s Hh Ha Hgate. subst header a.
    unfold ListBuckets. unfold actionOn in *. rewrite Hgate, Hget. reflexivity.
Qed.

(** X21: the calls each endpoint never makes.  [GetBucket] and
    [ListBuckets] call nothing that inserts or removes; [CreateBucket] calls
    nothing that removes; [DeleteBucket] calls nothing that inserts. *)
Theorem endpoints_keep_to_their_calls
  {W : Type} {C : Collaborators W} (endpoint : Endpoint) (now : Time)
  (s : W * list Event) :
  (forall req, exists added,
      trace (GetBucket endpoint req now s) = snd s ++ added /\
      existsb removes added = false /\ existsb inserts added = false) /\
  (forall req, exists added,
      trace (ListBuckets req now s) = snd s ++ added /\
      existsb removes added = false /\ existsb inserts added = false) /\
  (forall req, exists added,
      trace (CreateBucket endpoint req now s) = snd s ++ added /\
      existsb removes added = false) /\
  (forall req, exists added,
      trace (DeleteBucket endpoint req now s) = snd s ++ added /\
      existsb inserts added = false).
Proof.
  repeat split; intros req.
  - unfold GetBucket, convertBucketToProto. run.
    repeat (branch; simpl in *; try discriminate).
    all: rewrite <- ?app_assoc; simpl.
    all: try (eexists; split; [reflexivity|split; reflexivity]).
    all: exists []; rewrite app_nil_r; repeat split.
  - unfold ListBuckets. run.
    repeat (branch; simpl in *; try discriminate).
    all: rewrite <- ?app_assoc; simpl.
    all: try (eexists; split; [reflexivity|split; reflexivity]).
    all: exists []; rewrite app_nil_r; repeat split.
  - unfold CreateBucket, convertProtoToBucket, convertBucketToProto. run.
    repeat (branch; simpl in *; try discriminate).
    all: rewrite <- ?app_assoc; simpl.
    all: try (eexists; split; [reflexivity|reflexivity]).
    all: exists []; rewrite app_nil_r; repeat split.
  - unfold DeleteBucket, deleteBucketNotEmpty, deleteBucketObjects, deleteBucket,
      isBucketEmpty, convertBucketToProto. run.
    repeat (branch; simpl in *; try discriminate).
    all: rewrite <- ?app_assoc; simpl.
    all: try (eexists; split; [reflexivity|reflexivity]).
    all: exists []; rewrite app_nil_r; repeat split.
Qed.

(** ** The further theorems at work on the in-memory world *)

(** The lister asks for "photos", and the owner for a create under a name
    that is too short: refused, nothing touched. *)
Lemma refused_requests_touch_nothing_witness :
  let s := Scenario.fresh Scenario.calm in
  GetBucket (C := Scenario.mem) Scenario.endpoint
    (Scenario.get Scenario.lister "photos") Scenario.now s
  = (Done (None, Some (deniedError Forbidden)), s) /\
  CreateBucket (C := Scenario.mem) Scenario.endpoint
    (Scenario.create Scenario.owner "ab" "") Scenario.now s
  = (Done (None, Some (rpcstatus_Error InvalidArgument "invalid bucket name")), s).
Proof.
  intros s.
  destruct (refused_requests_touch_nothing (C := Scenario.mem) Scenario.endpoint
              Scenario.now s (deniedError Forbidden)) as (Hget & _ & _ & _).
  destruct (refused_requests_touch_nothing (C := Scenario.mem) Scenario.endpoint
              Scenario.now s (errorString "invalid bucket name"))
    as (_ & _ & Hcreate & _).
  split.
  - apply Hget. reflexivity.
  - destruct (Hcreate (Scenario.create Scenario.owner "ab" "")) as (_ & H).
    apply (H {| kiProjectID := 7 |}); reflexivity.
Defined.

(** The owner reads "photos" while the catalog is down, and reads a bucket
    that is not there. *)
Lemma GetBucket_catalog_error_witness :
  answer (GetBucket (C := Scenario.mem) Scenario.endpoint
            (Scenario.get Scenario.owner "photos") Scenario.now
            (Scenario.fresh (Scenario.world [Mem.Fail Cases.down] [] true)))
  = Done (None, Some (rpcstatus_Error Internal "store down")) /\
  GetBucket (C := Scenario.mem) Scenario.endpoint
    (Scenario.get Scenario.owner "films") Scenario.now (Scenario.fresh Scenario.calm)
  = (Done (None, Some (rpcstatus_Error NotFound "bucket not found: films")),
     (Scenario.calm, [EvGetMinimalBucket "films" 7])).
Proof.
  split.
  - rewrite (GetBucket_catalog_error (C := Scenario.mem) Scenario.endpoint
               (Scenario.get Scenario.owner "photos") Scenario.now
               {| kiProjectID := 7 |} Bucket_zero Cases.down _
               (Scenario.fresh (Scenario.world [Mem.Fail Cases.down] [] true))
               eq_refl eq_refl).
    reflexivity.
  - exact (GetBucket_catalog_error (C := Scenario.mem) Scenario.endpoint
             (Scenario.get Scenario.owner "films") Scenario.now
             {| kiProjectID := 7 |} Bucket_zero (Mem.notFound "films") _
             (Scenario.fresh Scenario.calm) eq_refl eq_refl).
Defined.

Lemma GetBucket_found_witness :
  GetBucket (C := Scenario.mem) Scenario.endpoint
    (Scenario.get Scenario.owner "photos") Scenario.now (Scenario.fresh Scenario.calm)
  = (Done (Some {| BucketGetResponse.Bucket := Some Scenario.photos_wire |}, None),
     (Scenario.calm, [EvGetMinimalBucket "photos" 7])).
Proof.
  exact (proj1 (GetBucket_found (C := Scenario.mem) Scenario.endpoint
                  (Scenario.get Scenario.owner "photos") Scenario.now
                  {| kiProjectID := 7 |} {| Name := "photos"; CreatedAt := 100 |} _
                  (Scenario.fresh Scenario.calm) eq_refl eq_refl)).
Defined.

(** A nameless record with no scheme converts to nothing; a named one
    panics. *)
Lemma convertBucketToProto_outcomes_witness :
  convertBucketToProto Bucket_zero None 64 = Done (None, None) /\
  convertBucketToProto {| Name := "photos"; CreatedAt := 100 |} None 64 = Panicked.
Proof.
  split.
  - apply (convertBucketToProto_outcomes Bucket_zero None 64). reflexivity.
  - apply (convertBucketToProto_outcomes {| Name := "photos"; CreatedAt := 100 |} None 64);
      [discriminate|reflexivity].
Defined.

(** 256 times 29 fits; 65536 times 65536 wraps to zero. *)
Lemma wire_block_size_is_int32_product_witness :
  let named := {| Name := "photos"; CreatedAt := 100 |} in
  let wrapped :=
    {| pbName := "photos"; pbCreatedAt := 100; PathCipher := ENC_AESGCM;
       DefaultSegmentSize := 64;
       DefaultRedundancyScheme := Some Cases.wide;
       DefaultEncryptionParameters :=
         Some {| EPCipherSuite := ENC_AESGCM; BlockSize := 0 |} |} in
  block_size Scenario.photos_wire = 256 * 29 /\
  convertBucketToProto named (Some Cases.wide) 64 = Done (Some wrapped, None) /\
  int32_range (block_size wrapped) /\
  (block_size wrapped - 65536 * 65536) mod 2 ^ 32 = 0.
Proof.
  intros named wrapped. split; [|split; [reflexivity|]].
  - apply (wire_block_size_is_int32_product named
             (defaultRS Scenario.endpoint) (MaxSegmentSize Scenario.endpoint)
             Scenario.photos_wire eq_refl).
    unfold int32_range. simpl. lia.
  - destruct (wire_block_size_is_int32_product named Cases.wide 64 wrapped eq_refl)
      as (Hr & Hm & _).
    split; assumption.
Defined.

(** The owner creates "photos", which is there. *)
Lemma CreateBucket_existing_witness :
  CreateBucket (C := Scenario.mem) Scenario.endpoint
    (Scenario.create Scenario.owner "photos" "") Scenario.now
    (Scenario.fresh Scenario.calm)
  = (Done (None, Some (rpcstatus_Error AlreadyExists "bucket already exists")),
     (Scenario.calm, [EvHasBucket "photos" 7; EvEnsureAttribution "photos"])).
Proof.
  exact (CreateBucket_existing (C := Scenario.mem) Scenario.endpoint
           (Scenario.create Scenario.owner "photos" "") Scenario.now
           {| kiProjectID := 7 |} None _ _ (Scenario.fresh Scenario.calm)
           eq_refl eq_refl eq_refl eq_refl).
Defined.

(** Two creates of "videos", one asking for a secret-box cipher and its own
    redundancy, one asking for nothing. *)
Lemma CreateBucket_ignores_preferences_witness :
  CreateBucket (C := Scenario.mem) Scenario.endpoint
    (Scenario.create Scenario.owner "videos" "") Scenario.now
    (Scenario.fresh Scenario.calm)
  = CreateBucket (C := Scenario.mem) Scenario.endpoint
      (Cases.create_plain Scenario.owner "videos" "") Scenario.now
      (Scenario.fresh Scenario.calm).
Proof.
  apply (CreateBucket_ignores_preferences (C := Scenario.mem) Scenario.endpoint
           (Scenario.create Scenario.owner "videos" "")
           (Cases.create_plain Scenario.owner "videos" "")).
  repeat split.
Defined.

(** A create of "videos" when [uuid.New] fails. *)
Lemma CreateBucket_uuid_failure_witness :
  answer (CreateBucket (C := Cases.without_entropy) Scenario.endpoint
            (Scenario.create Scenario.owner "videos" "") Scenario.now
            (Scenario.fresh Scenario.calm))
  = Done (None, Some (rpcstatus_Error InvalidArgument "entropy exhausted")).
Proof.
  rewrite (CreateBucket_uuid_failure (C := Cases.without_entropy) Scenario.endpoint
             (Scenario.create Scenario.owner "videos" "") Scenario.now
             {| kiProjectID := 7 |} None 2 uuid_zero (errorString "entropy exhausted")
             _ _ _ _ (Scenario.fresh Scenario.calm)
             eq_refl eq_refl eq_refl eq_refl eq_refl eq_refl eq_refl).
  reflexivity.
Defined.

(** A create of "videos" when the catalog is down at the insert: the client
    reads "unable to create bucket", the log reads "store down". *)
Lemma CreateBucket_insert_failure_witness :
  let s := Scenario.fresh
             (Scenario.world [Mem.Quiet; Mem.Quiet; Mem.Quiet; Mem.Fail Cases.down]
                [] true) in
  let r := CreateBucket (C := Scenario.mem) Scenario.endpoint
             (Scenario.create Scenario.owner "videos" "") Scenario.now s in
  answer r = Done (None, Some (rpcstatus_Error Internal "unable to create bucket")) /\
  last (trace r) EvUUIDNew
  = EvLogError "error while creating bucket" (Some "videos") Cases.down /\
  Mem.catalog (world r) = [Scenario.photos; Scenario.docs].
Proof.
  intros s r. unfold r.
  rewrite (CreateBucket_insert_failure (C := Scenario.mem) Scenario.endpoint
             (Scenario.create Scenario.owner "videos" "") Scenario.now
             {| kiProjectID := 7 |} None 2 50 uuid_zero
             (Some (errorString "uuid: invalid string")) storjBucket_zero Cases.down
             _ _ _ _ _ s
             eq_refl eq_refl eq_refl eq_refl eq_refl eq_refl eq_refl eq_refl
             (or_intror eq_refl) eq_refl).
  repeat split.
Defined.

(** A create of "videos" whose attribution fails: the client gets the error,
    and "videos" is in the catalog. *)
Lemma CreateBucket_inserted_witness :
  let s := Scenario.fresh
             (Scenario.world [Mem.Quiet; Mem.Quiet; Mem.Quiet; Mem.Quiet;
                              Mem.Fail Cases.down] [] true) in
  let r := CreateBucket (C := Scenario.mem) Scenario.endpoint
             (Scenario.create Scenario.owner "videos" "") Scenario.now s in
  answer r = Done (None, Some (rpcstatus_Error Internal "store down")) /\
  map sbName (Mem.catalog (world r)) = ["photos"; "docs"; "videos"].
Proof.
  intros s r. unfold r.
  rewrite (CreateBucket_inserted (C := Scenario.mem) Scenario.endpoint
             (Scenario.create Scenario.owner "videos" "") Scenario.now
             {| kiProjectID := 7 |} None 2 50 uuid_zero
             (Some (errorString "uuid: invalid string"))
             {| ID := 50; sbName := "videos"; ProjectID := 7; PartnerID := 0;
                Created := 200 |}
             (Some (rpcstatus_Error Internal "store down"))
             _ _ _ _ _ _ s
             eq_refl eq_refl eq_refl eq_refl eq_refl eq_refl eq_refl eq_refl
             (or_intror eq_refl) eq_refl eq_refl).
  repeat split.
Defined.

(** The reader asks for all of "photos" to go: no drain. *)
Lemma DeleteBucket_drains_only_when_asked_and_allowed_witness :
  exists added,
    trace (DeleteBucket (C := Scenario.mem) Scenario.endpoint
             (Scenario.delete Scenario.reader "photos" true) Scenario.now
             (Scenario.fresh Scenario.calm)) = [] ++ added /\
    existsb drains added = false.
Proof.
  apply (DeleteBucket_drains_only_when_asked_and_allowed (C := Scenario.mem)
           Scenario.endpoint (Scenario.delete Scenario.reader "photos" true)
           Scenario.now (Scenario.fresh Scenario.calm)).
  right. intros c H. inversion H. reflexivity.
Defined.

(** The owner deletes the empty "docs" while another request drops its
    record first: the same success as if the owner had removed it. *)
Lemma DeleteBucket_empty_bucket_witness :
  let docs_wire :=
    {| pbName := "docs"; pbCreatedAt := 110; PathCipher := ENC_AESGCM;
       DefaultSegmentSize := 67108864;
       DefaultRedundancyScheme := Some (defaultRS Scenario.endpoint);
       DefaultEncryptionParameters :=
         Some {| EPCipherSuite := ENC_AESGCM; BlockSize := 7424 |} |} in
  let expected := Done (Some {| BucketDeleteResponse.Bucket := Some docs_wire;
                                BucketDeleteResponse.DeletedObjectsCount := 0 |}, None) in
  answer (DeleteBucket (C := Scenario.mem) Scenario.endpoint
            (Scenario.delete Scenario.owner "docs" false) Scenario.now
            (Scenario.fresh (Scenario.world [Mem.Quiet; Mem.Quiet; Mem.DropBucket 7 "docs"]
                               [] true)))
  = expected /\
  answer (DeleteBucket (C := Scenario.mem) Scenario.endpoint
            (Scenario.delete Scenario.owner "docs" false) Scenario.now
            (Scenario.fresh Scenario.calm))
  = expected.
Proof.
  intros docs_wire expected. split.
  - rewrite (DeleteBucket_empty_bucket (C := Scenario.mem) Scenario.endpoint
               (Scenario.delete Scenario.owner "docs" false) Scenario.now Scenario.owner
               {| Name := "docs"; CreatedAt := 110 |} (Some (Mem.notFound "docs")) _ _ _
               (Scenario.fresh (Scenario.world
                                  [Mem.Quiet; Mem.Quiet; Mem.DropBucket 7 "docs"] [] true))
               eq_refl eq_refl eq_refl eq_refl eq_refl eq_refl eq_refl eq_refl).
    + reflexivity.
    + intros e H. inversion H. split; reflexivity.
  - rewrite (DeleteBucket_empty_bucket (C := Scenario.mem) Scenario.endpoint
               (Scenario.delete Scenario.owner "docs" false) Scenario.now Scenario.owner
               {| Name := "docs"; CreatedAt := 110 |} None _ _ _
               (Scenario.fresh Scenario.calm)
               eq_refl eq_refl eq_refl eq_refl eq_refl eq_refl eq_refl eq_refl).
    + reflexivity.
    + intros e H. discriminate.
Defined.

(** The owner deletes "films", which is not there, and "photos" while the
    catalog is down: NotFound, and the catalog's own error. *)
Lemma DeleteBucket_catalog_read_failed_witness :
  DeleteBucket (C := Scenario.mem) Scenario.endpoint
    (Scenario.delete Scenario.owner "films" true) Scenario.now
    (Scenario.fresh Scenario.calm)
  = (Done (None, Some (rpcstatus_Error NotFound "bucket not found: films")),
     (Scenario.calm, [EvGetMinimalBucket "films" 7])) /\
  answer (DeleteBucket (C := Scenario.mem) Scenario.endpoint
            (Scenario.delete Scenario.owner "photos" true) Scenario.now
            (Scenario.fresh (Scenario.world [Mem.Fail Cases.down] [] true)))
  = Done (None, Some Cases.down).
Proof.
  split.
  - exact (DeleteBucket_catalog_read_failed (C := Scenario.mem) Scenario.endpoint
             (Scenario.delete Scenario.owner "films" true) Scenario.now Scenario.owner
             Bucket_zero (Mem.notFound "films") _ (Scenario.fresh Scenario.calm)
             eq_refl eq_refl eq_refl eq_refl eq_refl eq_refl).
  - rewrite (DeleteBucket_catalog_read_failed (C := Scenario.mem) Scenario.endpoint
               (Scenario.delete Scenario.owner "photos" true) Scenario.now Scenario.owner
               Bucket_zero Cases.down _
               (Scenario.fresh (Scenario.world [Mem.Fail Cases.down] [] true))
               eq_refl eq_refl eq_refl eq_refl eq_refl eq_refl).
    reflexivity.
Defined.

(** The owner forces the deletion of "photos" and nobody interferes. *)
Lemma DeleteBucket_forced_success_witness :
  let r := DeleteBucket (C := Scenario.mem) Scenario.endpoint
             (Scenario.delete Scenario.owner "photos" true) Scenario.now
             (Scenario.fresh Scenario.calm) in
  answer r = Done (Some {| BucketDeleteResponse.Bucket := Some Scenario.photos_wire;
                           BucketDeleteResponse.DeletedObjectsCount := 3 |}, None) /\
  Mem.catalog (world r) = [Scenario.docs] /\
  Mem.objects (world r) = [].
Proof.
  intros r. unfold r.
  rewrite (DeleteBucket_forced_success (C := Scenario.mem) Scenario.endpoint
             (Scenario.delete Scenario.owner "photos" true) Scenario.now Scenario.owner
             {| Name := "photos"; CreatedAt := 100 |} 3 _ _ _ _ _
             (Scenario.fresh Scenario.calm)
             eq_refl eq_refl eq_refl eq_refl eq_refl eq_refl eq_refl eq_refl eq_refl
             eq_refl eq_refl).
  repeat split.
Defined.

(** The owner forces the deletion of "photos" while the metabase is down at
    the drain: Internal, and record and objects are where they were. *)
Lemma DeleteBucket_forced_drain_error_witness :
  let r := DeleteBucket (C := Scenario.mem) Scenario.endpoint
             (Scenario.delete Scenario.owner "photos" true) Scenario.now
             (Scenario.fresh (Scenario.world [Mem.Quiet; Mem.Quiet; Mem.Fail Cases.down]
                                [] true)) in
  answer r = Done (None, Some (rpcstatus_Error Internal "metainfo: store down")) /\
  Mem.catalog (world r) = [Scenario.photos; Scenario.docs] /\
  List.length (Mem.objects (world r)) = 3%nat.
Proof.
  intros r. unfold r.
  rewrite (DeleteBucket_forced_drain_error (C := Scenario.mem) Scenario.endpoint
             (Scenario.delete Scenario.owner "photos" true) Scenario.now Scenario.owner
             {| Name := "photos"; CreatedAt := 100 |} 0 Cases.down
             (classError MetainfoError Cases.down) _ _ _
             (Scenario.fresh (Scenario.world [Mem.Quiet; Mem.Quiet; Mem.Fail Cases.down]
                                [] true))
             eq_refl eq_refl eq_refl eq_refl eq_refl eq_refl eq_refl eq_refl eq_refl
             eq_refl).
  repeat split.
Defined.

(** [deleteBucket] on the populated "photos", and with the metabase down. *)
Lemma deleteBucket_guarded_witness :
  deleteBucket (C := Scenario.mem) "photos" 7 (Scenario.fresh Scenario.calm)
  = (Done (Some (class_New ErrBucketNotEmpty "")),
     (Scenario.calm, [EvBucketEmpty {| locProjectID := 7; BucketName := "photos" |}])) /\
  (exists err,
      answer (deleteBucket (C := Scenario.mem) "docs" 7
                (Scenario.fresh (Scenario.world [Mem.Fail Cases.down] [] true)))
      = Done (Some err) /\ Has MetainfoError err = true).
Proof.
  split.
  - destruct (deleteBucket_guarded (C := Scenario.mem) "photos" 7 false None _
                (Scenario.fresh Scenario.calm) eq_refl) as (err & Hrun & Hne & _).
    + discriminate.
    + rewrite Hrun, (Hne eq_refl). reflexivity.
  - destruct (deleteBucket_guarded (C := Scenario.mem) "docs" 7 false (Some Cases.down) _
                (Scenario.fresh (Scenario.world [Mem.Fail Cases.down] [] true)) eq_refl)
      as (err & Hrun & _ & Hin).
    + discriminate.
    + exists err. rewrite Hrun. split; [reflexivity|]. apply Hin. discriminate.
Defined.

(** [deleteBucketNotEmpty] on "photos" when another request uploads after
    the drain. *)
Lemma deleteBucketNotEmpty_answers_witness :
  exists nm count err,
    answer (deleteBucketNotEmpty (C := Scenario.mem) 7 "photos"
              (Scenario.fresh (Scenario.world
                                 [Mem.Quiet; Mem.PutObject (Scenario.photo "d" 4)] [] true)))
    = Done (nm, count, err) /\
    (err = None -> nm = Some "photos") /\
    (err <> None ->
     nm = None /\
     (fails_with Internal err = true \/ fails_with FailedPrecondition err = true)).
Proof.
  exact (deleteBucketNotEmpty_answers (C := Scenario.mem) 7 "photos"
           (Scenario.fresh (Scenario.world
                              [Mem.Quiet; Mem.PutObject (Scenario.photo "d" 4)] [] true))).
Defined.

(** The owner lists: two items, "photos" then "docs". *)
Lemma ListBuckets_page_witness :
  answer (ListBuckets (C := Scenario.mem) (Scenario.listing Scenario.owner) Scenario.now
            (Scenario.fresh Scenario.calm))
  = Done (Some {| BucketListResponse.Items :=
                    [ {| BucketListItem.Name := "photos"; BucketListItem.CreatedAt := 100 |};
                      {| BucketListItem.Name := "docs"; BucketListItem.CreatedAt := 110 |} ];
                  BucketListResponse.More := false |}, None).
Proof.
  destruct (ListBuckets_page (C := Scenario.mem) (Scenario.listing Scenario.owner)
              Scenario.now {| kiProjectID := 7 |} Scenario.everything
              {| More := false; Items := [Scenario.photos; Scenario.docs] |} _
              (Scenario.fresh Scenario.calm) eq_refl eq_refl eq_refl)
    as (items & Hrun & Hlen & Hnth & _).
  rewrite Hrun. unfold answer. cbn [fst].
  pose proof (Hnth 0%nat Scenario.photos eq_refl) as H0.
  pose proof (Hnth 1%nat Scenario.docs eq_refl) as H1.
  destruct items as [|a [|b [|x rest]]]; simpl in Hlen; try discriminate.
  inversion H0. inversion H1. reflexivity.
Defined.

(** A credential that cannot tell its allowed buckets lists nothing, though
    it said "every bucket" next to its error. *)
Lemma getAllowedBuckets_fails_closed_witness :
  let a := actionOn ActionRead "" Scenario.now in
  let err := rpcstatus_Error Internal "GetAllowedBuckets: unknown caveat" in
  getAllowedBuckets (Scenario.header Cases.muddled) a = (AllowedBuckets_zero, Some err) /\
  ListBuckets (C := Scenario.mem) (Scenario.listing Cases.muddled) Scenario.now
    (Scenario.fresh Scenario.calm)
  = (Done (None, Some err), Scenario.fresh Scenario.calm).
Proof.
  intros a err. split; [reflexivity|].
  destruct (getAllowedBuckets_fails_closed (W := Mem.world) (C := Scenario.mem)
              (Scenario.header Cases.muddled) a AllowedBuckets_zero err eq_refl)
    as (_ & _ & H).
  apply (H (Scenario.listing Cases.muddled) Scenario.now {| kiProjectID := 7 |});
    reflexivity.
Defined.

(** The owner deletes the empty "docs" while the catalog is down at the
    delete. *)
Lemma DeleteBucket_catalog_delete_failed_witness :
  answer (DeleteBucket (C := Scenario.mem) Scenario.endpoint
            (Scenario.delete Scenario.owner "docs" false) Scenario.now
            (Scenario.fresh (Scenario.world [Mem.Quiet; Mem.Quiet; Mem.Fail Cases.down]
                               [] true)))
  = Done (None, Some (rpcstatus_Error Internal "store down")).
Proof.
  rewrite (DeleteBucket_catalog_delete_failed (C := Scenario.mem) Scenario.endpoint
             (Scenario.delete Scenario.owner "docs" false) Scenario.now Scenario.owner
             {| Name := "docs"; CreatedAt := 110 |} Cases.down _ _ _
             (Scenario.fresh (Scenario.world [Mem.Quiet; Mem.Quiet; Mem.Fail Cases.down]
                                [] true))
             eq_refl eq_refl eq_refl eq_refl eq_refl eq_refl eq_refl eq_refl
             eq_refl eq_refl).
  reflexivity.
Defined.
